(** * The stock allocation kernel of [architecture_patterns_with_python]

    A shallow embedding of [1_domain_modeling/model.py] (the value object
    [OrderLine], the entity [Batch] and the domain service [allocate]) and of
    the service layer built on top of it ([4_service_layer/services.py] and
    [8_events_and_the_message_bus/.../service_layer/services.py]), followed by
    the properties the specification states about them.

    Conventions of the embedding.
    - Python [int] is [Z]; [str] is [string]; a [date] is its proleptic
      Gregorian ordinal (what [date.toordinal()] returns), a [Z], so that the
      comparison of two dates is the comparison of two integers;
      [Optional[date]] is [option date].
    - A Python [set] of hashable values is a [gset]: [OrderLine] is a frozen
      dataclass, so its equality and hash are by value.
    - Methods that only read [self] (properties, [can_allocate], [__gt__]) are
      functions of the object's state.  Methods that assign are computations
      in a state-and-exception monad over the object's state.
    - [Batch] objects are mutable and shared: a list of batches is a list of
      object identities and the objects live in a store. *)

From Stdlib Require Import ZArith Lia.
From stdpp Require Import base decidable countable strings list gmap sets
  functions sorting.

#[local] Set Warnings "-clear-no-such-hyp".

(** ** Exceptions and the state-and-exception monad *)

Inductive exn : Type :=
| KeyError
| StopIteration
| OutOfStock (msg : string)
| InvalidSku (msg : string).

Inductive outcome (A : Type) : Type :=
| Return (a : A)
| Raise (e : exn).
Arguments Return {A} a.
Arguments Raise {A} e.

(** A computation over a state [S]: it ends by returning a value or by
    raising, and in both cases leaves a state behind (Python does not roll
    back what was assigned before a [raise]). *)
Definition M (S A : Type) : Type := S → outcome A * S.

(** [return a] and sequencing, as instances of stdpp's monad classes: they
    provide the notations [x ← m; k] and [m;; k] and [mret]. *)
#[global] Instance M_ret {S} : MRet (M S) := λ A a s, (Return a, s).

#[global] Instance M_bind {S} : MBind (M S) :=
  λ A B k m s, match m s with
               | (Return a, s') => k a s'
               | (Raise e, s') => (Raise e, s')
               end.

Definition raise {S A} (e : exn) : M S A := λ s, (Raise e, s).

Definition get {S} : M S S := λ s, (Return s, s).

Definition modify {S} (f : S → S) : M S unit := λ s, (Return tt, f s).

(** [try: m  except: handler] *)
Definition try_except {S A} (m : M S A) (handler : exn → M S A) : M S A :=
  λ s, match m s with
       | (Return a, s') => (Return a, s')
       | (Raise e, s') => handler e s'
       end.

(** ** [sorted] and [next]

    Python's [sorted] is stable and compares with [<] only.  For a strict
    weak ordering every stable sort returns the same list, so [sorted] is
    embedded as the stable insertion sort: an element is placed in front of
    the already sorted rest, past the elements strictly smaller than it and
    before the first element that is not. *)
Section Builtins.
Context {A : Type}.
Variable lt : A → A → bool.

Fixpoint insert_sorted (x : A) (l : list A) : list A :=
  match l with
  | [] => [x]
  | y :: l' => if lt y x then y :: insert_sorted x l' else x :: y :: l'
  end.

Fixpoint sorted (l : list A) : list A :=
  match l with
  | [] => []
  | x :: l' => insert_sorted x (sorted l')
  end.

(** [next(b for b in it if cond(b))]: the first element that satisfies the
    condition; an exhausted generator raises [StopIteration]. *)
Fixpoint next_where (cond : A → bool) (it : list A) : outcome A :=
  match it with
  | [] => Raise StopIteration
  | b :: it' => if cond b then Return b else next_where cond it'
  end.
End Builtins.

(** ** model.py *)

Module OrderLine.
(** [@dataclass(frozen=True) class OrderLine] *)
Record t : Type := OrderLine { orderid : string; sku : string; qty : Z }.

#[global] Instance eq_dec : EqDecision t.
Proof. solve_decision. Defined.

#[global] Instance countable : Countable t.
Proof.
  refine (inj_countable' (λ l, (orderid l, sku l, qty l))
                         (λ p, OrderLine p.1.1 p.1.2 p.2) _).
  by intros [].
Defined.
End OrderLine.

Definition date : Type := Z.

Module Batch.
Record t : Type := mk {
  reference : string;
  sku : string;
  eta : option date;
  _purchased_quantity : Z;
  _allocations : gset OrderLine.t
}.

(** [Batch(ref, sku, qty, eta)] *)
Definition __init__ (ref sku : string) (qty : Z) (eta : option date) : t :=
  mk ref sku eta qty ∅.

(** The state of [self] after an assignment to [self._allocations]'s
    contents; every other attribute is kept. *)
Definition with_allocations (self : t) (s : gset OrderLine.t) : t :=
  mk (reference self) (sku self) (eta self) (_purchased_quantity self) s.

Definition __gt__ (self other : t) : bool :=
  match eta self with
  | None => false
  | Some d =>
      match eta other with
      | None => true
      | Some d' => (d >? d')%Z
      end
  end.

(** [sum(line.qty for line in self._allocations)] *)
Definition allocated_quantity (self : t) : Z :=
  set_fold (λ line acc, acc + OrderLine.qty line)%Z 0%Z (_allocations self).

Definition available_quantity (self : t) : Z :=
  (_purchased_quantity self - allocated_quantity self)%Z.

Definition can_allocate (self : t) (line : OrderLine.t) : bool :=
  bool_decide (sku self = OrderLine.sku line)
  && (available_quantity self >=? OrderLine.qty line)%Z.

(** [self._allocations.add(line)]: [set.add] never raises. *)
Definition _allocations_add (line : OrderLine.t) : M t unit :=
  modify (λ self, with_allocations self ({[line]} ∪ _allocations self)).

(** [self._allocations.remove(line)]: [set.remove] raises [KeyError] when
    the element is absent. *)
Definition _allocations_remove (line : OrderLine.t) : M t unit :=
  self ← get;
  if bool_decide (line ∈ _allocations self)
  then modify (λ self, with_allocations self (_allocations self ∖ {[line]}))
  else raise KeyError.

Definition allocate (line : OrderLine.t) : M t unit :=
  self ← get;
  if can_allocate self line then _allocations_add line else mret tt.

Definition deallocate (line : OrderLine.t) : M t unit :=
  self ← get;
  if bool_decide (line ∈ _allocations self)
  then _allocations_remove line
  else mret tt.

(** [f'<Batch {self.reference}>'] *)
Definition __repr__ (self : t) : string := "<Batch " +:+ reference self +:+ ">".

(** A Python value that a batch may be compared with: another batch, or a
    value of another class (an order line, [None]). *)
Inductive object : Type :=
| a_batch (other : t)
| a_line (other : OrderLine.t)
| none.

(** [isinstance(other, Batch)] decides between the two returns. *)
Definition __eq__ (self : t) (other : object) : bool :=
  match other with
  | a_batch other => bool_decide (reference other = reference self)
  | a_line _ | none => false
  end.

Section Hash.
(** The builtin [hash] on strings: some function of the string. *)
Variable hash : string → Z.

Definition __hash__ (self : t) : Z := hash (reference self).
End Hash.
End Batch.

(** *** The store of batch objects *)

(** The identity of a [Batch] object. *)
Definition loc : Type := nat.

(** Every Python reference denotes a live object, so the store is total. *)
Definition store : Type := loc → Batch.t.

(** [b.method(...)] for the object [b] of the store: the method runs on the
    state of [b] and what it leaves behind is the new state of [b]. *)
Definition call {A} (b : loc) (method : M Batch.t A) : M store A :=
  λ h, match method (h b) with
       | (r, self') => (r, <[b := self']> h)
       end.

Module model.
(** [a < b] on two batches.  [Batch] defines [__gt__] only, so Python
    evaluates [a < b] through the reflected method, as [b.__gt__(a)]. *)
Definition __lt__ (h : store) (a b : loc) : bool := Batch.__gt__ (h b) (h a).

Definition out_of_stock (line : OrderLine.t) : exn :=
  OutOfStock ("Out of stock for sku " +:+ OrderLine.sku line).

(** [batch = next(b for b in sorted(batches) if b.can_allocate(line))] *)
Definition select (line : OrderLine.t) (batches : list loc) : M store loc :=
  λ h, (next_where (λ b, Batch.can_allocate (h b) line)
                   (sorted (__lt__ h) batches), h).

Definition allocate (line : OrderLine.t) (batches : list loc) : M store string :=
  try_except
    (batch ← select line batches;
     call batch (Batch.allocate line);;
     h ← get;
     mret (Batch.reference (h batch)))
    (λ e, match e with
          | StopIteration => raise (out_of_stock line)
          | _ => raise e
          end).
End model.

(** *** Sequences of calls on one batch *)

Inductive batch_call : Type :=
| Allocate (line : OrderLine.t)
| Deallocate (line : OrderLine.t).

Definition line_of (c : batch_call) : OrderLine.t :=
  match c with Allocate line | Deallocate line => line end.

Definition perform (c : batch_call) : M Batch.t unit :=
  match c with
  | Allocate line => Batch.allocate line
  | Deallocate line => Batch.deallocate line
  end.

(** The outcome of every call of a sequence and the state it leaves, in
    order, starting from the state [self]. *)
Fixpoint history (calls : list batch_call) (self : Batch.t)
    : list (outcome unit * Batch.t) :=
  match calls with
  | [] => []
  | c :: calls' => perform c self :: history calls' (perform c self).2
  end.

(** ** 4_service_layer/services.py *)

Module services.
(** What the service layer works on: the batch objects and the database
    session, of which only the number of commits matters here. *)
Record world : Type := mk { batches_of : store; commits : nat }.

(** A computation on the batch objects, run inside the world. *)
Definition on_store {A} (m : M store A) : M world A :=
  λ w, match m (batches_of w) with
       | (r, h') => (r, mk h' (commits w))
       end.

(** [session.commit()] *)
Definition session_commit : M world unit :=
  modify (λ w, mk (batches_of w) (S (commits w))).

(** [sku in {b.sku for b in batches}] *)
Definition is_valid_sku (h : store) (sku : string) (batches : list loc) : bool :=
  bool_decide (sku ∈ (list_to_set ((λ b, Batch.sku (h b)) <$> batches) : gset string)).

Definition invalid_sku (line : OrderLine.t) : exn :=
  InvalidSku ("Invalid sku " +:+ OrderLine.sku line).

(** [allocate(line, repo, session)], with the function bound to
    [model.allocate] as a parameter.  [repo] is the list of batches that
    [repo.list()] returns. *)
Definition allocate_via
    (model_allocate : OrderLine.t → list loc → M store string)
    (line : OrderLine.t) (repo : list loc) : M world string :=
  let batches := repo in
  w ← get;
  if negb (is_valid_sku (batches_of w) (OrderLine.sku line) batches)
  then raise (invalid_sku line)
  else
    batchref ← on_store (model_allocate line batches);
    session_commit;;
    mret batchref.

Definition allocate : OrderLine.t → list loc → M world string :=
  allocate_via model.allocate.
End services.

(** ** The [Product] aggregate *)

Module Product.
(** Modelled from the spec: the class [Product] of [allocation/domain/model.py]
    is not among the source files; only its callers are.  Section 3: a
    product has a [sku], an ordered collection of [batches] that it owns, and
    a [version_number], a counter. *)
Record t : Type := mk {
  sku : string;
  batches : list loc;
  version_number : Z
}.

(** [self.version_number += 1] *)
Definition bump (self : t) : t :=
  mk (sku self) (batches self) (version_number self + 1)%Z.

(** Modelled from the spec: the method [Product.allocate], missing with its
    class.  Section 4.4: [allocate(line)] delegates to the algorithm of the
    kernel scoped to [self.batches]; on success it increments
    [version_number]; it fails with the same out-of-stock condition. *)
Definition allocate (line : OrderLine.t) : M (t * store) string :=
  λ s, match model.allocate line (batches s.1) s.2 with
       | (Return ref, h') => (Return ref, (bump s.1, h'))
       | (Raise e, h') => (Raise e, (s.1, h'))
       end.

(** A caller that allocates the lines in turn against the same product and
    handles every failure: the outcomes, and the state left at the end. *)
Fixpoint allocate_each (lines : list OrderLine.t) (s : t * store)
    : list (outcome string) * (t * store) :=
  match lines with
  | [] => ([], s)
  | line :: lines' =>
      let r := allocate line s in
      let rs := allocate_each lines' r.2 in
      (r.1 :: rs.1, rs.2)
  end.
End Product.

Definition is_return {A} (r : outcome A) : bool :=
  match r with Return _ => true | Raise _ => false end.

(** ** 8_events_and_the_message_bus: adapters/repository.py and
    service_layer/services.py *)

(** The identity of a [Product] object. *)
Definition ploc : Type := nat.

Module service_layer.
Section UnitOfWork.
(** The unit of work ([service_layer/unit_of_work.py]) is not among the
    source files.  Its own state is [U]; entering and leaving the [with]
    block and [commit] act on that state only, and [__exit__] lets an
    exception through. *)
Context {U : Type}.
Variables uow_enter uow_exit uow_commit : U → U.

Record world : Type := mk {
  products : ploc → Product.t;
  batches_of : store;
  rows : list ploc;
  seen : gset ploc;
  uow : U
}.

Definition on_uow (f : U → U) : M world unit :=
  modify (λ w, mk (products w) (batches_of w) (rows w) (seen w) (f (uow w))).

(** [SqlAlchemyRepository._get]:
    [session.query(model.Product).filter_by(sku=sku).first()] *)
Definition _get (sku : string) : M world (option ploc) :=
  w ← get;
  mret (find (λ p, bool_decide (Product.sku (products w p) = sku)) (rows w)).

(** [AbstractRepository.get]: an object is truthy, [None] is not. *)
Definition get_product (sku : string) : M world (option ploc) :=
  product ← _get sku;
  match product with
  | Some p =>
      modify (λ w, mk (products w) (batches_of w) (rows w) ({[p]} ∪ seen w) (uow w));;
      mret product
  | None => mret product
  end.

(** [product.method(...)]: the method works on the product and on the batch
    objects. *)
Definition call_product {A} (p : ploc) (method : M (Product.t * store) A)
    : M world A :=
  λ w, match method (products w p, batches_of w) with
       | (r, (self', h')) =>
           (r, mk (<[p := self']> (products w)) h' (rows w) (seen w) (uow w))
       end.

(** [with uow: body] *)
Definition with_uow {A} (body : M world A) : M world A :=
  on_uow uow_enter;;
  try_except (a ← body; on_uow uow_exit;; mret a)
             (λ e, on_uow uow_exit;; raise e).

Definition invalid_sku (line : OrderLine.t) : exn :=
  InvalidSku ("Invalid sku " +:+ OrderLine.sku line).

(** [allocate(orderid, sku, qty, uow)], with the method bound to
    [product.allocate] as a parameter. *)
Definition allocate_via
    (product_allocate : OrderLine.t → M (Product.t * store) string)
    (orderid sku : string) (qty : Z) : M world string :=
  let line := OrderLine.OrderLine orderid sku qty in
  with_uow
    (product ← get_product (OrderLine.sku line);
     match product with
     | None => raise (invalid_sku line)
     | Some p =>
         batchref ← call_product p (product_allocate line);
         on_uow uow_commit;;
         mret batchref
     end).

Definition allocate : string → string → Z → M world string :=
  allocate_via Product.allocate.

(** [SqlAlchemyRepository._add]: [session.add(product)] puts the product
    among the rows that later queries see, after the rows already there. *)
Definition _add (p : ploc) : M world unit :=
  modify (λ w, mk (products w) (batches_of w) (rows w ++ [p]) (seen w) (uow w)).

(** [AbstractRepository.add] *)
Definition add_product (p : ploc) : M world unit :=
  _add p;;
  modify (λ w, mk (products w) (batches_of w) (rows w) ({[p]} ∪ seen w) (uow w)).

(** [model.Batch(ref, sku, qty, eta)]: a new object; [b] is the identity it
    gets. *)
Definition new_batch (b : loc) (ref sku : string) (qty : Z) (eta : option date)
    : M world loc :=
  modify (λ w, mk (products w) (<[b := Batch.__init__ ref sku qty eta]> (batches_of w))
                  (rows w) (seen w) (uow w));;
  mret b.

(** [product.batches.append(b)] *)
Definition batches_append (p : ploc) (b : loc) : M world unit :=
  modify (λ w,
    let self := products w p in
    mk (<[p := Product.mk (Product.sku self) (Product.batches self ++ [b])
                          (Product.version_number self)]> (products w))
       (batches_of w) (rows w) (seen w) (uow w)).

Section AddBatch.
(** Modelled from the spec: the constructor of [Product], missing with its
    class.  [model.Product(sku, batches=[])] gives a product with that SKU
    and those batches; the value [version0] that the counter starts from is
    not said.  [p] is the identity the new object gets. *)
Variable version0 : Z.

Definition new_product (p : ploc) (sku : string) (batches : list loc)
    : M world ploc :=
  modify (λ w, mk (<[p := Product.mk sku batches version0]> (products w))
                  (batches_of w) (rows w) (seen w) (uow w));;
  mret p.

(** [add_batch(ref, sku, qty, eta, uow)]; [nb] and [np] are the identities
    of the batch and of the product that the call may create. *)
Definition add_batch (nb : loc) (np : ploc)
    (ref sku : string) (qty : Z) (eta : option date) : M world unit :=
  with_uow
    (found ← get_product sku;
     product ← match found with
               | None => p ← new_product np sku []; add_product p;; mret p
               | Some p => mret p
               end;
     b ← new_batch nb ref sku qty eta;
     batches_append product b;;
     on_uow uow_commit).
End AddBatch.
End UnitOfWork.
End service_layer.

(** ** Vocabulary of the properties *)

(** The sum of [qty] over a set of lines. *)
Definition sum_qty (X : gset OrderLine.t) : Z :=
  set_fold (λ line acc, acc + OrderLine.qty line)%Z 0%Z X.

(** [not_after lt a b]: [b < a] is false, so [a] may stand before [b] in a
    sorted list. *)
Definition not_after {A} (lt : A → A → bool) (a b : A) : Prop := lt b a = false.

(** The store in which [s.allocate(line)] leaves the store [h]. *)
Definition allocated_in (h : store) (line : OrderLine.t) (s : loc) : store :=
  <[s := (Batch.allocate line (h s)).2]> h.

(** The world after a [with uow:] block that changed nothing but the state
    of the unit of work. *)
Definition through_uow {U} (uow_enter uow_exit : U → U)
    (w : service_layer.world (U:=U)) : service_layer.world :=
  service_layer.mk (service_layer.products w) (service_layer.batches_of w)
    (service_layer.rows w) (service_layer.seen w)
    (uow_exit (uow_enter (service_layer.uow w))).

(** A batch holds lines of its own SKU only, all of them taken from [lines]. *)
Definition holds_own (lines : list OrderLine.t) (self : Batch.t) : Prop :=
  ∀ l, l ∈ Batch._allocations self → OrderLine.sku l = Batch.sku self ∧ l ∈ lines.

(** The first row whose product has the SKU. *)
Definition first_row {U} (w : service_layer.world (U:=U)) (sku : string)
    : option ploc :=
  find (λ p, bool_decide (Product.sku (service_layer.products w p) = sku))
       (service_layer.rows w).

(** ** Concrete objects used in the examples below *)

Definition today : date := 739558%Z.
Definition tomorrow : date := (today + 1)%Z.
Definition later : date := (tomorrow + 10)%Z.

(** A store that holds the given objects at the identities 0, 1, ... (and
    an empty, unnamed batch at every other identity). *)
Definition store_of (objects : list Batch.t) : store :=
  λ b, default (Batch.__init__ "" "" 0 None) (objects !! b).

Definition table_line : OrderLine.t := OrderLine.OrderLine "order-ref" "SMALL-TABLE" 2.

Definition clock_line : OrderLine.t := OrderLine.OrderLine "oref" "RETRO-CLOCK" 10.

Definition clock_store : store :=
  store_of [ Batch.__init__ "in-stock-batch" "RETRO-CLOCK" 100 None;
             Batch.__init__ "shipment-batch" "RETRO-CLOCK" 100 (Some tomorrow) ].

Definition spoon_line : OrderLine.t := OrderLine.OrderLine "order1" "MINIMALIST-SPOON" 10.

Definition spoon_store : store :=
  store_of [ Batch.__init__ "speedy-batch" "MINIMALIST-SPOON" 100 (Some today);
             Batch.__init__ "normal-batch" "MINIMALIST-SPOON" 100 (Some tomorrow);
             Batch.__init__ "slow-batch" "MINIMALIST-SPOON" 100 (Some later);
             Batch.__init__ "second-speedy-batch" "MINIMALIST-SPOON" 100 (Some today) ].

(** A world with one product, of clocks, that owns the two batches of
    [clock_store]; the state of its unit of work counts the commits. *)
Definition clock_world : service_layer.world (U:=nat) :=
  service_layer.mk (λ _, Product.mk "RETRO-CLOCK" [0; 1]%nat 0) clock_store
    [0%nat] ∅ 0%nat.

(** A batch that already holds [table_line], at every identity. *)
Definition table_store : store :=
  λ _, Batch.mk "batch-001" "SMALL-TABLE" (Some today) 20 {[table_line]}.

(** * Properties *)

(** ** The quantities of a batch *)

Section BatchQuantities.
Implicit Types (self : Batch.t) (line : OrderLine.t) (X : gset OrderLine.t).
Local Open Scope Z_scope.

Lemma allocated_quantity_sum self :
  Batch.allocated_quantity self = sum_qty (Batch._allocations self).
Proof. reflexivity. Qed.

Lemma sum_qty_empty : sum_qty ∅ = 0.
Proof. unfold sum_qty. by rewrite set_fold_empty. Qed.

Lemma sum_qty_add line X :
  line ∉ X → sum_qty ({[line]} ∪ X) = sum_qty X + OrderLine.qty line.
Proof.
  intros Hfresh. unfold sum_qty.
  rewrite (set_fold_disj_union_strong (=)); [ | solve_proper | | set_solver ].
  - rewrite set_fold_singleton.
    rewrite (set_fold_comm_acc _ (λ acc, acc + OrderLine.qty line)); [ | intros; lia ].
    reflexivity.
  - intros; lia.
Qed.

Lemma union_present line X : line ∈ X → {[line]} ∪ X = X.
Proof. set_solver. Qed.

Lemma sum_qty_remove line X :
  line ∈ X → sum_qty (X ∖ {[line]}) = sum_qty X - OrderLine.qty line.
Proof.
  intros Hin.
  assert (X = {[line]} ∪ X ∖ {[line]}) as Hsplit.
  { apply set_eq. intros x. destruct (decide (x = line)); set_solver. }
  rewrite Hsplit at 2. rewrite sum_qty_add by set_solver. lia.
Qed.

Lemma available_with_allocations self X :
  Batch.available_quantity (Batch.with_allocations self X)
  = Batch._purchased_quantity self - sum_qty X.
Proof. reflexivity. Qed.

Lemma can_allocate_spec self line :
  Batch.can_allocate self line = true
  ↔ OrderLine.sku line = Batch.sku self
    ∧ OrderLine.qty line ≤ Batch.available_quantity self.
Proof.
  unfold Batch.can_allocate.
  rewrite andb_true_iff, bool_decide_eq_true, Z.geb_le. naive_solver.
Qed.

(** What the two mutators compute, as equations on the state of [self]. *)
Lemma allocate_run self line :
  Batch.allocate line self
  = (Return tt,
     if Batch.can_allocate self line
     then Batch.with_allocations self ({[line]} ∪ Batch._allocations self)
     else self).
Proof.
  unfold Batch.allocate, mbind, M_bind, get. simpl.
  by destruct (Batch.can_allocate self line).
Qed.

Lemma deallocate_run self line :
  Batch.deallocate line self
  = (Return tt,
     if bool_decide (line ∈ Batch._allocations self)
     then Batch.with_allocations self (Batch._allocations self ∖ {[line]})
     else self).
Proof.
  unfold Batch.deallocate, Batch._allocations_remove, mbind, M_bind, get. simpl.
  repeat case_bool_decide; done.
Qed.

Lemma with_allocations_id self : Batch.with_allocations self (Batch._allocations self) = self.
Proof. by destruct self. Qed.
End BatchQuantities.

(** ** [Batch]: [can_allocate], [allocate], [deallocate] *)

Section BatchMethods.
Implicit Types (self : Batch.t) (line : OrderLine.t).
Local Open Scope Z_scope.

(** C3.  [b.can_allocate(line)] is true exactly when the line's SKU is the
    batch's SKU and the line's quantity is at most the available quantity,
    where the available quantity is the purchased quantity minus the sum of
    [qty] over the allocated lines (0 for no line, and [qty] more for every
    further line).  The method has no side effect: it is a function of the
    state of the batch and nothing else, it yields a boolean and no new
    state. *)
Theorem can_allocate_iff self line :
  (Batch.can_allocate self line = true
   ↔ OrderLine.sku line = Batch.sku self
     ∧ OrderLine.qty line ≤ Batch.available_quantity self)
  ∧ Batch.available_quantity self
    = Batch._purchased_quantity self - sum_qty (Batch._allocations self)
  ∧ sum_qty ∅ = 0
  ∧ (∀ l X, l ∉ X → sum_qty ({[l]} ∪ X) = sum_qty X + OrderLine.qty l).
Proof.
  split; [ apply can_allocate_spec | ].
  split; [ reflexivity | ].
  split; [ apply sum_qty_empty | apply sum_qty_add ].
Qed.

(** C6.  [Batch.allocate] is idempotent: a second call with the same line
    returns normally and leaves the batch (its allocations and hence its
    available quantity) exactly as the first call left it. *)
Theorem allocate_idempotent self line :
  let once := (Batch.allocate line self).2 in
  Batch.allocate line once = (Return tt, once)
  ∧ Batch._allocations (Batch.allocate line once).2 = Batch._allocations once
  ∧ Batch.available_quantity (Batch.allocate line once).2
    = Batch.available_quantity once.
Proof.
  intros once.
  assert (Batch.allocate line once = (Return tt, once)) as Htwice.
  { subst once. rewrite !allocate_run. simpl.
    destruct (Batch.can_allocate self line) eqn:Hcan.
    - match goal with |- context [if ?c then _ else _] => destruct c end; [ | done ].
      unfold Batch.with_allocations. simpl. do 2 f_equal. set_solver.
    - by rewrite Hcan. }
  by rewrite Htwice.
Qed.

(** C7.  [Batch.allocate] and [Batch.deallocate] never raise.  A call of
    [allocate] with a line the batch cannot allocate, and a call of
    [deallocate] with a line that is not allocated, return normally and
    leave the batch as it was. *)
Theorem allocate_deallocate_never_raise self line :
  (Batch.allocate line self).1 = Return tt
  ∧ (Batch.deallocate line self).1 = Return tt
  ∧ (Batch.can_allocate self line = false →
     Batch.allocate line self = (Return tt, self))
  ∧ (line ∉ Batch._allocations self →
     Batch.deallocate line self = (Return tt, self)).
Proof.
  rewrite allocate_run, deallocate_run. simpl.
  repeat split.
  - by intros ->.
  - intros Hout. by rewrite bool_decide_eq_false_2.
Qed.

(** X2.  [deallocate] undoes an [allocate] of a line that was not allocated:
    whether or not the batch could allocate the line, allocating it and then
    deallocating it leaves the batch as it was. *)
Theorem deallocate_undoes_allocate self line :
  line ∉ Batch._allocations self →
  (Batch.deallocate line (Batch.allocate line self).2).2 = self.
Proof.
  intros Hout. rewrite allocate_run. simpl.
  destruct (Batch.can_allocate self line); rewrite deallocate_run; simpl.
  - rewrite bool_decide_eq_true_2 by set_solver.
    unfold Batch.with_allocations. simpl.
    replace (({[line]} ∪ Batch._allocations self) ∖ {[line]})
      with (Batch._allocations self) by set_solver.
    by destruct self.
  - by rewrite bool_decide_eq_false_2.
Qed.

Lemma allocate_available self line :
  0 ≤ Batch.available_quantity self →
  0 ≤ Batch.available_quantity (Batch.allocate line self).2.
Proof.
  intros Hinv. rewrite allocate_run. simpl.
  destruct (Batch.can_allocate self line) eqn:Hcan; [ | done ].
  apply can_allocate_spec in Hcan as [_ Hqty].
  rewrite available_with_allocations.
  destruct (decide (line ∈ Batch._allocations self)) as [Hin|Hout].
  - rewrite union_present by done. exact Hinv.
  - rewrite sum_qty_add by done.
    unfold Batch.available_quantity in Hqty. rewrite allocated_quantity_sum in Hqty. lia.
Qed.

Lemma deallocate_available self line :
  0 < OrderLine.qty line →
  0 ≤ Batch.available_quantity self →
  0 ≤ Batch.available_quantity (Batch.deallocate line self).2.
Proof.
  intros Hpos Hinv. rewrite deallocate_run. simpl.
  case_bool_decide as Hin; [ | done ].
  rewrite available_with_allocations, sum_qty_remove by done.
  unfold Batch.available_quantity in Hinv. rewrite allocated_quantity_sum in Hinv. lia.
Qed.

Lemma perform_available c self :
  0 < OrderLine.qty (line_of c) →
  0 ≤ Batch.available_quantity self →
  (perform c self).1 = Return tt
  ∧ 0 ≤ Batch.available_quantity (perform c self).2.
Proof.
  intros Hpos Hinv. destruct c as [line|line]; simpl in *.
  - split; [ by rewrite allocate_run | by apply allocate_available ].
  - split; [ by rewrite deallocate_run | by apply deallocate_available ].
Qed.

Lemma history_available calls : ∀ self,
  Forall (λ c, 0 < OrderLine.qty (line_of c)) calls →
  0 ≤ Batch.available_quantity self →
  Forall (λ r, r.1 = Return tt ∧ 0 ≤ Batch.available_quantity r.2)
         (history calls self).
Proof.
  induction calls as [|c calls IH]; intros self Hcalls Hinv; simpl.
  - constructor.
  - apply Forall_cons in Hcalls as [Hpos Hcalls].
    destruct (perform_available c self Hpos Hinv) as [Hret Hinv'].
    constructor; [ done | by apply IH ].
Qed.

(** C4.  For a batch constructed with a non-negative purchased quantity and
    any sequence of [allocate] and [deallocate] calls whose lines have a
    positive quantity, every call returns and the available quantity is
    non-negative after every call.  In particular, whatever the batch and
    the line, when [allocate] adds a line that was not allocated, the
    available quantity it leaves is the former one minus the line's
    quantity, and it is non-negative. *)
Theorem available_quantity_invariant
    (ref sku : string) (qty : Z) (eta : option date) (calls : list batch_call) :
  0 ≤ qty →
  Forall (λ c, 0 < OrderLine.qty (line_of c)) calls →
  Forall (λ r, r.1 = Return tt ∧ 0 ≤ Batch.available_quantity r.2)
         (history calls (Batch.__init__ ref sku qty eta))
  ∧ (∀ self line,
       line ∉ Batch._allocations self →
       line ∈ Batch._allocations (Batch.allocate line self).2 →
       Batch.available_quantity (Batch.allocate line self).2
       = Batch.available_quantity self - OrderLine.qty line
       ∧ 0 ≤ Batch.available_quantity (Batch.allocate line self).2).
Proof.
  intros Hqty Hcalls. split.
  - apply history_available; [ done | ].
    unfold Batch.available_quantity, Batch.allocated_quantity. simpl.
    rewrite set_fold_empty. lia.
  - intros self line Hout. rewrite allocate_run. simpl.
    destruct (Batch.can_allocate self line) eqn:Hcan; [ intros _ | done ].
    apply can_allocate_spec in Hcan as [_ Hle].
    rewrite available_with_allocations, sum_qty_add by done.
    unfold Batch.available_quantity in *. rewrite allocated_quantity_sum in *. lia.
Qed.
End BatchMethods.

(** ** [sorted] and [next] *)

Section BuiltinsFacts.
Context {A : Type} (lt : A → A → bool).

Lemma insert_sorted_perm x l : insert_sorted lt x l ≡ₚ x :: l.
Proof.
  induction l as [|y l IH]; simpl; [ done | ].
  destruct (lt y x); [ | done ].
  rewrite IH. apply Permutation_swap.
Qed.

Lemma sorted_perm l : sorted lt l ≡ₚ l.
Proof.
  induction l as [|x l IH]; simpl; [ done | ].
  by rewrite insert_sorted_perm, IH.
Qed.

Lemma elem_of_sorted x l : x ∈ sorted lt l ↔ x ∈ l.
Proof. by rewrite sorted_perm. Qed.

(** Stability: elements that do not precede one another keep the order they
    had in the list. *)
Lemma insert_sorted_filter (P : A → Prop) `{∀ x, Decision (P x)} x l :
  (∀ y, y ∈ l → P x → P y → lt y x = false) →
  filter P (insert_sorted lt x l) = filter P (x :: l).
Proof.
  induction l as [|y l IH]; simpl; intros Hties; [ done | ].
  destruct (lt y x) eqn:Hyx; [ | done ].
  rewrite filter_cons, IH by (intros z Hz; apply Hties; by right).
  rewrite !filter_cons.
  destruct (decide (P y)) as [Hy|Hy], (decide (P x)) as [Hx|Hx]; try done.
  rewrite Hties in Hyx by (done || left). done.
Qed.

Lemma sorted_filter (P : A → Prop) `{∀ x, Decision (P x)} l :
  (∀ a b, P a → P b → lt a b = false) →
  filter P (sorted lt l) = filter P l.
Proof.
  intros Hties. induction l as [|x l IH]; simpl; [ done | ].
  rewrite insert_sorted_filter by (intros; by apply Hties).
  by rewrite !filter_cons, IH.
Qed.

Hypothesis lt_asym : ∀ a b, lt a b = true → lt b a = false.
Hypothesis not_after_trans :
  ∀ a b c, not_after lt a b → not_after lt b c → not_after lt a c.

Lemma insert_sorted_sorted x l :
  StronglySorted (not_after lt) l → StronglySorted (not_after lt) (insert_sorted lt x l).
Proof.
  induction 1 as [|y l Hl IH Hy]; simpl.
  - repeat constructor.
  - destruct (lt y x) eqn:Hyx.
    + constructor; [ exact IH | ].
      rewrite insert_sorted_perm. constructor; [ | exact Hy ].
      by apply lt_asym.
    + constructor; [ by constructor | ].
      constructor; [ exact Hyx | ].
      eapply Forall_impl; [ exact Hy | ].
      intros z Hz. by apply not_after_trans with y.
Qed.

Lemma sorted_sorted l : StronglySorted (not_after lt) (sorted lt l).
Proof.
  induction l as [|x l IH]; simpl; [ constructor | by apply insert_sorted_sorted ].
Qed.

Lemma lt_irrefl a : not_after lt a a.
Proof.
  unfold not_after. destruct (lt a a) eqn:Haa; [ | done ].
  by rewrite (lt_asym _ _ Haa) in Haa.
Qed.

(** On a sorted list [next] returns an element that satisfies the condition
    and that no other element satisfying it must precede. *)
Lemma next_where_sorted cond l s :
  StronglySorted (not_after lt) l →
  next_where cond l = Return s →
  s ∈ l ∧ cond s = true ∧ ∀ b, b ∈ l → cond b = true → not_after lt s b.
Proof.
  induction 1 as [|y l Hl IH Hy]; simpl; [ done | ].
  destruct (cond y) eqn:Hc.
  - intros [= <-]. split; [ left | ]. split; [ done | ].
    intros b [->|Hb]%elem_of_cons _; [ apply lt_irrefl | ].
    by eapply Forall_forall in Hy.
  - intros (Hs & Hcs & Hmin)%IH. split; [ by right | ]. split; [ done | ].
    intros b [->|Hb]%elem_of_cons Hcb; [ congruence | by apply Hmin ].
Qed.
End BuiltinsFacts.

Section NextFacts.
Context {A : Type}.

Lemma next_where_raise (cond : A → bool) l e :
  next_where cond l = Raise e →
  e = StopIteration ∧ ∀ b, b ∈ l → cond b = false.
Proof.
  induction l as [|y l IH]; simpl.
  - intros [= <-]. split; [ done | ]. by intros b ?%elem_of_nil.
  - destruct (cond y) eqn:Hc; [ done | ].
    intros [-> Hall]%IH. split; [ done | ].
    by intros b [->|Hb]%elem_of_cons; [ | apply Hall ].
Qed.

Lemma next_where_none (cond : A → bool) l :
  (∀ b, b ∈ l → cond b = false) → next_where cond l = Raise StopIteration.
Proof.
  induction l as [|y l IH]; simpl; intros Hall; [ done | ].
  rewrite (Hall y) by left. apply IH. intros b Hb. apply Hall. by right.
Qed.
End NextFacts.

(** ** The ordering of batches *)

Section BatchOrder.
Implicit Types (a b c : Batch.t).
Local Open Scope Z_scope.

Lemma gt_asym a b : Batch.__gt__ a b = true → Batch.__gt__ b a = false.
Proof.
  unfold Batch.__gt__. destruct (Batch.eta a), (Batch.eta b); try done.
  rewrite Z.gtb_gt. intros. apply not_true_is_false. rewrite Z.gtb_gt. lia.
Qed.

Lemma gt_false_trans a b c :
  Batch.__gt__ a b = false → Batch.__gt__ b c = false → Batch.__gt__ a c = false.
Proof.
  unfold Batch.__gt__. destruct (Batch.eta a), (Batch.eta b), (Batch.eta c); try done.
  intros H1%not_true_iff_false H2%not_true_iff_false.
  apply not_true_is_false. rewrite Z.gtb_gt in *. lia.
Qed.

(** What [a.__gt__(b)] being false says of the two dates. *)
Lemma gt_false_spec a b :
  Batch.__gt__ a b = false ↔
  Batch.eta a = None
  ∨ ∃ d d', Batch.eta a = Some d ∧ Batch.eta b = Some d' ∧ d ≤ d'.
Proof.
  unfold Batch.__gt__. destruct (Batch.eta a) as [d|], (Batch.eta b) as [d'|].
  - rewrite <- not_true_iff_false, Z.gtb_gt. split.
    + intros. right. exists d, d'. repeat split; lia.
    + intros [?|(? & ? & [= <-] & [= <-] & ?)]; [ done | lia ].
  - split; [ done | ]. by intros [?|(? & ? & ? & ? & ?)].
  - split; [ by left | done ].
  - split; [ by left | done ].
Qed.
End BatchOrder.

(** ** The allocation kernel *)

Section Kernel.
Implicit Types (line : OrderLine.t) (batches : list loc) (h : store).

(** [<] on the batches of a store is asymmetric, and "not after" is
    transitive: what a sort needs to order a list. *)
Lemma lt_batches_asym h (a b : loc) :
  model.__lt__ h a b = true → model.__lt__ h b a = false.
Proof. apply gt_asym. Qed.

Lemma not_after_batches_trans h (a b c : loc) :
  not_after (model.__lt__ h) a b → not_after (model.__lt__ h) b c →
  not_after (model.__lt__ h) a c.
Proof.
  unfold not_after, model.__lt__. intros Hab Hbc. by apply gt_false_trans with (h b).
Qed.

(** The kernel in one equation: it commits to what the generator yields,
    and turns the exhausted generator into the out-of-stock condition. *)
Lemma kernel_run line batches h :
  model.allocate line batches h
  = match (model.select line batches h).1 with
    | Return s => (Return (Batch.reference (h s)), allocated_in h line s)
    | Raise _ => (Raise (model.out_of_stock line), h)
    end.
Proof.
  unfold model.allocate, try_except, mbind, M_bind, model.select. simpl.
  destruct (next_where _ _) as [s|e] eqn:Hnext; simpl.
  - unfold call, allocated_in. rewrite allocate_run. simpl.
    rewrite (fn_lookup_insert (A:=loc) h s).
    by destruct (Batch.can_allocate (h s) line).
  - by apply next_where_raise in Hnext as [-> _].
Qed.

(** Allocating a line to a batch that holds it already changes no
    allocations set. *)
Lemma allocated_in_present h line (s b : loc) :
  line ∈ Batch._allocations (h s) →
  Batch._allocations (allocated_in h line s b) = Batch._allocations (h b).
Proof.
  intros Hin. unfold allocated_in. destruct (decide (s = b)) as [<-|Hne].
  - rewrite (fn_lookup_insert (A:=loc) h s), allocate_run. simpl.
    destruct (Batch.can_allocate (h s) line); [ | done ]. simpl. set_solver.
  - by rewrite (fn_lookup_insert_ne (A:=loc) h s b).
Qed.

Lemma select_return line batches h s :
  (model.select line batches h).1 = Return s →
  s ∈ batches
  ∧ Batch.can_allocate (h s) line = true
  ∧ ∀ b, b ∈ batches → Batch.can_allocate (h b) line = true →
         Batch.__gt__ (h s) (h b) = false.
Proof.
  unfold model.select. simpl. intros Hnext.
  pose proof (sorted_sorted _ (lt_batches_asym h) (not_after_batches_trans h) batches)
    as Hsorted.
  destruct (next_where_sorted _ (lt_batches_asym h) _ _ _ Hsorted Hnext)
    as (Hs & Hcan & Hmin).
  rewrite elem_of_sorted in Hs. split; [ done | ]. split; [ done | ].
  intros b Hb Hcb. apply Hmin; [ by rewrite elem_of_sorted | done ].
Qed.

Lemma select_raise line batches h e :
  (model.select line batches h).1 = Raise e →
  ∀ b, b ∈ batches → Batch.can_allocate (h b) line = false.
Proof.
  unfold model.select. simpl. intros [_ Hall]%next_where_raise b Hb.
  apply Hall. by rewrite elem_of_sorted.
Qed.

Lemma select_some line batches h b :
  b ∈ batches → Batch.can_allocate (h b) line = true →
  ∃ s, (model.select line batches h).1 = Return s.
Proof.
  intros Hb Hcan. destruct (model.select line batches h).1 as [s|e] eqn:Hsel.
  - by exists s.
  - apply select_raise with (b := b) in Hsel; [ congruence | done ].
Qed.
End Kernel.

Section SortedBatches.
Implicit Types (batches : list loc) (h : store).

(** X1.  What [sorted(batches)] is: the batches of the list, each as often as in
    the list; no batch stands before one that it is greater than, so the
    batches in stock come first and the dated ones follow by ascending date;
    and batches with the same [eta] stand in the order of the list. *)
Theorem sorted_batches_stable h batches :
  sorted (model.__lt__ h) batches ≡ₚ batches
  ∧ StronglySorted (λ a b, Batch.__gt__ (h a) (h b) = false)
                   (sorted (model.__lt__ h) batches)
  ∧ ∀ eta : option date,
      filter (λ b, Batch.eta (h b) = eta) (sorted (model.__lt__ h) batches)
      = filter (λ b, Batch.eta (h b) = eta) batches.
Proof.
  split; [ apply sorted_perm | ]. split.
  - apply (sorted_sorted (model.__lt__ h)).
    + apply lt_batches_asym.
    + apply not_after_batches_trans.
  - intros eta. apply sorted_filter. intros a b Ha Hb.
    unfold model.__lt__, Batch.__gt__. rewrite Ha, Hb.
    destruct eta as [d|]; [ | done ]. apply not_true_is_false. rewrite Z.gtb_gt. lia.
Qed.
End SortedBatches.

Section KernelClaims.
Implicit Types (line : OrderLine.t) (batches : list loc) (h : store).
Local Open Scope Z_scope.

(** C1.  When some candidate can allocate the line, the kernel selects a
    candidate [s] that can allocate it, allocates the line to [s] and returns
    the reference of [s], and [s] is the most preferred one: compared with
    any candidate [b] that can allocate the line, if [b] is in stock
    ([eta = None]) then so is [s], so that no dated batch is selected while
    an in-stock batch can allocate; and if both are dated then the date of
    [s] is not later than the date of [b], so that a dated batch is never
    selected while another with a strictly earlier date can allocate. *)
Theorem allocate_prefers_earliest line batches h :
  (∃ b, b ∈ batches ∧ Batch.can_allocate (h b) line = true) →
  ∃ s,
    model.select line batches h = (Return s, h)
    ∧ model.allocate line batches h
      = (Return (Batch.reference (h s)), allocated_in h line s)
    ∧ s ∈ batches
    ∧ Batch.can_allocate (h s) line = true
    ∧ (∀ b, b ∈ batches → Batch.can_allocate (h b) line = true →
         (Batch.eta (h b) = None → Batch.eta (h s) = None)
         ∧ (∀ d d', Batch.eta (h s) = Some d → Batch.eta (h b) = Some d' → d ≤ d'))
    ∧ (∀ B D, B ∈ batches → Batch.can_allocate (h B) line = true →
         Batch.eta (h B) = None → Batch.eta (h D) ≠ None → s ≠ D)
    ∧ (∀ D1 D2 d1 d2, D1 ∈ batches → Batch.can_allocate (h D1) line = true →
         Batch.eta (h D1) = Some d1 → Batch.eta (h D2) = Some d2 → d1 < d2 →
         s ≠ D2).
Proof.
  intros (b0 & Hb0 & Hcan0).
  destruct (select_some line batches h b0 Hb0 Hcan0) as [s Hsel].
  destruct (select_return line batches h s Hsel) as (Hs & Hcan & Hmin).
  assert (∀ b, b ∈ batches → Batch.can_allocate (h b) line = true →
            (Batch.eta (h b) = None → Batch.eta (h s) = None)
            ∧ (∀ d d', Batch.eta (h s) = Some d → Batch.eta (h b) = Some d' → d ≤ d'))
    as Hpref.
  { intros b Hb Hcb. specialize (Hmin b Hb Hcb).
    apply gt_false_spec in Hmin as [Hnone|(d & d' & Hd & Hd' & Hle)].
    - split; [ done | congruence ].
    - split; [ congruence | ]. intros ? ? ? ?. simplify_eq. done. }
  exists s. split.
  { unfold model.select in *. simpl in *. by rewrite Hsel. }
  split; [ by rewrite kernel_run, Hsel | ].
  do 3 (split; [ done | ]). split.
  - intros B D HB HcB HetaB HetaD ->.
    destruct (Hpref B HB HcB) as [Hnone _]. by apply HetaD, Hnone.
  - intros D1 D2 d1 d2 HD1 HcD1 Hd1 Hd2 Hlt ->.
    destruct (Hpref D1 HD1 HcD1) as [_ Hle]. specialize (Hle d2 d1 Hd2 Hd1). lia.
Qed.

(** C2.  The kernel raises exactly when no candidate can allocate the line;
    what it raises is then the out-of-stock condition whose message carries
    the line's SKU, and the store of batches is left as it was, so that no
    batch's allocations or available quantity change. *)
Theorem allocate_out_of_stock line batches h :
  ((∀ b, b ∈ batches → Batch.can_allocate (h b) line = false)
   ↔ ∃ e, (model.allocate line batches h).1 = Raise e)
  ∧ (∀ e, (model.allocate line batches h).1 = Raise e →
       e = OutOfStock ("Out of stock for sku " +:+ OrderLine.sku line)
       ∧ (model.allocate line batches h).2 = h).
Proof.
  rewrite kernel_run.
  destruct (model.select line batches h).1 as [s|e0] eqn:Hsel; simpl.
  - apply select_return in Hsel as (Hs & Hcan & _). split.
    + split; [ | by intros [? ?] ]. intros Hall. rewrite Hall in Hcan; done.
    + done.
  - split.
    + split; [ by eexists | ]. intros _. by eapply select_raise.
    + by intros e [= <-].
Qed.

(** C5, as the code has it.  If some candidate can allocate the line the
    call returns; and whenever the call returns, there is one candidate, the
    selected one, such that the returned string is its reference, its
    allocations set becomes the former set with the line added while its
    other attributes are kept, and every other batch of the store is
    unchanged.  The selected batch itself changes exactly when the line was
    not yet in its allocations set. *)
Theorem allocate_frame line batches h :
  ((∃ b, b ∈ batches ∧ Batch.can_allocate (h b) line = true) →
   ∃ ref h', model.allocate line batches h = (Return ref, h'))
  ∧ (∀ ref h', model.allocate line batches h = (Return ref, h') →
     ∃ s, s ∈ batches
        ∧ Batch.can_allocate (h s) line = true
        ∧ ref = Batch.reference (h s)
        ∧ h' s = Batch.with_allocations (h s) ({[line]} ∪ Batch._allocations (h s))
        ∧ (∀ b, b ≠ s → h' b = h b)
        ∧ (h' s ≠ h s ↔ line ∉ Batch._allocations (h s))).
Proof.
  split.
  - intros (b & Hb & Hcan). destruct (select_some line batches h b Hb Hcan) as [s Hsel].
    rewrite kernel_run, Hsel. by eexists _, _.
  - intros ref h'. rewrite kernel_run.
    destruct (model.select line batches h).1 as [s|e0] eqn:Hsel; [ | done ].
    intros [= <- <-]. apply select_return in Hsel as (Hs & Hcan & _).
    assert (allocated_in h line s s
            = Batch.with_allocations (h s) ({[line]} ∪ Batch._allocations (h s))) as Hnew.
    { unfold allocated_in. rewrite (fn_lookup_insert (A:=loc) h s), allocate_run.
      simpl. by rewrite Hcan. }
    exists s. do 3 (split; [ done | ]). split; [ exact Hnew | ]. split.
    + intros b Hne. unfold allocated_in. by rewrite (fn_lookup_insert_ne (A:=loc) h s b).
    + rewrite Hnew. split.
      * intros Hchanged Hin. apply Hchanged.
        rewrite union_present by done. apply with_allocations_id.
      * intros Hout Heq. apply Hout.
        apply (f_equal Batch._allocations) in Heq. simpl in Heq. set_solver.
Qed.

(** C10.  With no candidate at all the kernel raises the out-of-stock
    condition carrying the line's SKU and leaves the store as it was; this is
    the very outcome of a call with candidates none of which can allocate
    the line. *)
Theorem allocate_no_batches line h :
  model.allocate line [] h
  = (Raise (OutOfStock ("Out of stock for sku " +:+ OrderLine.sku line)), h)
  ∧ ∀ batches,
      (∀ b, b ∈ batches → Batch.can_allocate (h b) line = false) →
      model.allocate line batches h = model.allocate line [] h.
Proof.
  split; [ reflexivity | ].
  intros batches Hnone. rewrite !kernel_run.
  destruct (model.select line batches h).1 as [s|e] eqn:Hsel; [ | reflexivity ].
  apply select_return in Hsel as (Hs & Hcan & _).
  rewrite (Hnone s Hs) in Hcan. discriminate.
Qed.
End KernelClaims.

(** ** The service layer *)

Section ServiceLayer.
Implicit Types (line : OrderLine.t) (h : store).

Lemma is_valid_sku_spec h sku (batches : list loc) :
  services.is_valid_sku h sku batches = true
  ↔ ∃ b, b ∈ batches ∧ Batch.sku (h b) = sku.
Proof.
  unfold services.is_valid_sku.
  rewrite bool_decide_eq_true, elem_of_list_to_set, list_elem_of_fmap.
  naive_solver.
Qed.

Lemma is_valid_sku_false h sku (batches : list loc) :
  services.is_valid_sku h sku batches = false
  ↔ ∀ b, b ∈ batches → Batch.sku (h b) ≠ sku.
Proof.
  rewrite <- not_true_iff_false, is_valid_sku_spec. naive_solver.
Qed.

(** The kernel raises nothing but the out-of-stock condition. *)
Lemma kernel_raises line (batches : list loc) h e :
  (model.allocate line batches h).1 = Raise e → e = model.out_of_stock line.
Proof.
  rewrite kernel_run. destruct (model.select line batches h).1; simpl; congruence.
Qed.

Lemma services_allocate_invalid kernel line (repo : list loc) (w : services.world) :
  services.is_valid_sku (services.batches_of w) (OrderLine.sku line) repo = false →
  services.allocate_via kernel line repo w = (Raise (services.invalid_sku line), w).
Proof.
  intros Hinvalid. unfold services.allocate_via, mbind, M_bind, get. simpl.
  by rewrite Hinvalid.
Qed.

Lemma services_allocate_valid line (repo : list loc) (w : services.world) msg :
  services.is_valid_sku (services.batches_of w) (OrderLine.sku line) repo = true →
  (services.allocate line repo w).1 ≠ Raise (InvalidSku msg).
Proof.
  intros Hvalid. unfold services.allocate, services.allocate_via, mbind, M_bind, get.
  simpl. rewrite Hvalid. simpl. unfold services.on_store.
  destruct (model.allocate line repo (services.batches_of w)) as [[ref|e] h'] eqn:Hrun;
    simpl; [ done | ].
  assert (e = model.out_of_stock line) as ->; [ | done ].
  apply (kernel_raises line repo (services.batches_of w)). by rewrite Hrun.
Qed.

Lemma find_product_none (products : ploc → Product.t) sku (rows : list ploc) :
  find (λ p, bool_decide (Product.sku (products p) = sku)) rows = None
  ↔ ∀ p, p ∈ rows → Product.sku (products p) ≠ sku.
Proof.
  induction rows as [|p rows IH]; simpl.
  - split; [ by intros _ p ?%elem_of_nil | done ].
  - case_bool_decide as Hp.
    + split; [ done | ]. intros Hall. by destruct (Hall p); [ left | ].
    + rewrite IH. split.
      * by intros Hall q [->|Hq]%elem_of_cons; [ | apply Hall ].
      * intros Hall q Hq. apply Hall. by right.
Qed.

Context {U : Type} (uow_enter uow_exit uow_commit : U → U).
Implicit Types (w : service_layer.world (U:=U)).

Lemma uow_allocate_invalid product_allocate orderid sku qty w :
  find (λ p, bool_decide (Product.sku (service_layer.products w p) = sku))
       (service_layer.rows w) = None →
  service_layer.allocate_via uow_enter uow_exit uow_commit
    product_allocate orderid sku qty w
  = (Raise (InvalidSku ("Invalid sku " +:+ sku)), through_uow uow_enter uow_exit w).
Proof.
  intros Hnone.
  unfold service_layer.allocate_via, service_layer.with_uow,
    service_layer.get_product, service_layer._get, service_layer.on_uow,
    try_except, mbind, M_bind, get, modify, mret, M_ret, raise.
  simpl. by rewrite Hnone.
Qed.

Lemma uow_allocate_valid orderid sku qty w p msg :
  find (λ p, bool_decide (Product.sku (service_layer.products w p) = sku))
       (service_layer.rows w) = Some p →
  (service_layer.allocate uow_enter uow_exit uow_commit orderid sku qty w).1
  ≠ Raise (InvalidSku msg).
Proof.
  intros Hsome.
  unfold service_layer.allocate, service_layer.allocate_via, service_layer.with_uow,
    service_layer.get_product, service_layer._get, service_layer.on_uow,
    service_layer.call_product, Product.allocate,
    try_except, mbind, M_bind, get, modify, mret, M_ret, raise.
  simpl. rewrite Hsome. simpl.
  destruct (model.allocate _ _ _) as [[ref|e] h'] eqn:Hrun; simpl; [ done | ].
  assert (e = model.out_of_stock (OrderLine.OrderLine orderid sku qty)) as ->; [ | done ].
  eapply kernel_raises. by rewrite Hrun.
Qed.
End ServiceLayer.

Section ServiceClaims.
Local Open Scope Z_scope.

(** C8.  Both service-layer [allocate] functions check the SKU before they
    call into the domain model.  The one over a repository of batches raises
    the invalid-SKU condition exactly when no batch the repository lists has
    the line's SKU; the one over a unit of work raises it exactly when the
    repository holds no product with that SKU.  In that case the domain
    function is not called: whatever function is bound to it, the outcome is
    the invalid-SKU condition carrying the SKU, with the batches, the
    products and the session's commits as they were (the unit of work only
    sees its [with] block entered and left). *)
Theorem service_allocate_validates_sku :
  (∀ line (repo : list loc) (w : services.world),
     ((∃ msg, (services.allocate line repo w).1 = Raise (InvalidSku msg))
      ↔ ∀ b, b ∈ repo → Batch.sku (services.batches_of w b) ≠ OrderLine.sku line)
     ∧ ∀ kernel,
         (∀ b, b ∈ repo → Batch.sku (services.batches_of w b) ≠ OrderLine.sku line) →
         services.allocate_via kernel line repo w
         = (Raise (InvalidSku ("Invalid sku " +:+ OrderLine.sku line)), w))
  ∧ (∀ (U : Type) (uow_enter uow_exit uow_commit : U → U)
       (orderid sku : string) (qty : Z) (w : service_layer.world (U:=U)),
     ((∃ msg, (service_layer.allocate uow_enter uow_exit uow_commit
                 orderid sku qty w).1 = Raise (InvalidSku msg))
      ↔ ∀ p, p ∈ service_layer.rows w →
             Product.sku (service_layer.products w p) ≠ sku)
     ∧ ∀ product_allocate,
         (∀ p, p ∈ service_layer.rows w →
               Product.sku (service_layer.products w p) ≠ sku) →
         service_layer.allocate_via uow_enter uow_exit uow_commit
           product_allocate orderid sku qty w
         = (Raise (InvalidSku ("Invalid sku " +:+ sku)),
            through_uow uow_enter uow_exit w)).
Proof.
  split.
  - intros line repo w. split.
    + rewrite <- is_valid_sku_false. split.
      * intros [msg Hraise].
        destruct (services.is_valid_sku _ _ _) eqn:Hvalid; [ | done ].
        by apply services_allocate_valid with (msg := msg) in Hvalid.
      * intros Hinvalid. exists ("Invalid sku " +:+ OrderLine.sku line).
        unfold services.allocate. by rewrite services_allocate_invalid.
    + intros kernel Hinvalid. apply services_allocate_invalid.
      by apply is_valid_sku_false.
  - intros U uow_enter uow_exit uow_commit orderid sku qty w. split.
    + rewrite <- find_product_none. split.
      * intros [msg Hraise].
        destruct (find _ _) as [p|] eqn:Hfind; [ | done ].
        by eapply uow_allocate_valid in Hfind.
      * intros Hnone. exists ("Invalid sku " +:+ sku).
        unfold service_layer.allocate. by rewrite uow_allocate_invalid.
    + intros product_allocate Hnone. apply uow_allocate_invalid.
      by apply find_product_none.
Qed.

Lemma product_allocate_run line (s : Product.t * store) :
  Product.allocate line s
  = match model.allocate line (Product.batches s.1) s.2 with
    | (Return ref, h') => (Return ref, (Product.bump s.1, h'))
    | (Raise e, h') => (Raise e, (s.1, h'))
    end.
Proof. reflexivity. Qed.

Lemma allocate_each_version lines : ∀ s : Product.t * store,
  Product.version_number (Product.allocate_each lines s).2.1
  = Product.version_number s.1
    + Z.of_nat (length (filter (λ r, is_return r = true) (Product.allocate_each lines s).1)).
Proof.
  induction lines as [|line lines IH]; intros s; simpl.
  - lia.
  - rewrite IH. rewrite product_allocate_run.
    destruct (model.allocate line _ _) as [[ref|e] h']; simpl.
    + lia.
    + rewrite filter_cons_False by done. lia.
Qed.

(** C9.  [Product.allocate] increments [version_number] by one on every
    successful allocation and leaves it alone when the allocation fails.
    Hence over any series of allocations against the same product the
    version number never decreases: at the end it is the initial one plus
    the number of allocations that succeeded. *)
Theorem product_allocate_version_number :
  (∀ line (self : Product.t) (h : store),
     match Product.allocate line (self, h) with
     | (Return ref, (self', h')) =>
         Product.version_number self' = Product.version_number self + 1
         ∧ model.allocate line (Product.batches self) h = (Return ref, h')
     | (Raise e, (self', h')) =>
         Product.version_number self' = Product.version_number self
         ∧ model.allocate line (Product.batches self) h = (Raise e, h')
     end)
  ∧ (∀ lines (s : Product.t * store),
       Product.version_number (Product.allocate_each lines s).2.1
       = Product.version_number s.1
         + Z.of_nat (length (filter (λ r, is_return r = true)
                                    (Product.allocate_each lines s).1))
       ∧ Product.version_number s.1
         ≤ Product.version_number (Product.allocate_each lines s).2.1).
Proof.
  split.
  - intros line self h. rewrite product_allocate_run. simpl.
    by destruct (model.allocate line _ _) as [[ref|e] h'].
  - intros lines s. pose proof (allocate_each_version lines s) as Hcount.
    split; [ exact Hcount | lia ].
Qed.
End ServiceClaims.

(** ** The scenarios of the specification, run on the embedding *)

Section Scenarios.
Local Open Scope Z_scope.

Example scenario_allocate_reduces_available :
  Batch.available_quantity
    (Batch.allocate table_line (Batch.__init__ "batch-001" "SMALL-TABLE" 20 (Some today))).2
  = 18.
Proof. vm_compute. reflexivity. Qed.

Example scenario_prefers_current_stock :
  let r := model.allocate clock_line [0; 1]%nat clock_store in
  r.1 = Return "in-stock-batch"
  ∧ Batch.available_quantity (r.2 0%nat) = 90
  ∧ Batch.available_quantity (r.2 1%nat) = 100.
Proof. vm_compute. done. Qed.

Example scenario_prefers_earlier_batches :
  let r := model.allocate spoon_line [2; 1; 0]%nat spoon_store in
  r.1 = Return "speedy-batch"
  ∧ Batch.available_quantity (r.2 0%nat) = 90
  ∧ Batch.available_quantity (r.2 1%nat) = 100
  ∧ Batch.available_quantity (r.2 2%nat) = 100.
Proof. vm_compute. done. Qed.

Example scenario_cannot_allocate_more_than_available :
  let batch := Batch.__init__ "batch-001" "ELEGANT-LAMP" 2 (Some today) in
  let line := OrderLine.OrderLine "order-123" "ELEGANT-LAMP" 20 in
  Batch.can_allocate batch line = false
  ∧ Batch.available_quantity (Batch.allocate line batch).2 = 2.
Proof. vm_compute. done. Qed.

Example scenario_cannot_allocate_other_sku :
  Batch.can_allocate (Batch.__init__ "batch-001" "UNCOMFORTABLE-CHAIR" 100 None)
                     (OrderLine.OrderLine "order-123" "EXPENSIVE-TOASTER" 10)
  = false.
Proof. vm_compute. reflexivity. Qed.

Example scenario_can_allocate_exact_quantity :
  let batch := Batch.__init__ "batch-001" "ELEGANT-LAMP" 2 (Some today) in
  let line := OrderLine.OrderLine "order-123" "ELEGANT-LAMP" 2 in
  Batch.can_allocate batch line = true
  ∧ Batch.available_quantity (Batch.allocate line batch).2 = 0.
Proof. vm_compute. done. Qed.

(** Two batches with the same date keep the order of the list: the sort is
    stable. *)
Example scenario_equal_dates_keep_list_order :
  sorted (model.__lt__ spoon_store) [3; 1; 0; 2]%nat = [3; 0; 1; 2]%nat.
Proof. vm_compute. reflexivity. Qed.
End Scenarios.

(** ** The claims at concrete inputs *)

Section Instances.
Local Open Scope Z_scope.

(** The shipment is listed first and both batches can allocate the line:
    the kernel still allocates to the batch in stock. *)
Lemma allocate_prefers_earliest_witness :
  model.allocate clock_line [1; 0]%nat clock_store
  = (Return "in-stock-batch", allocated_in clock_store clock_line 0%nat).
Proof.
  destruct (allocate_prefers_earliest clock_line [1; 0]%nat clock_store)
    as (s & Hsel & Hrun & _).
  - exists 0%nat. split; [ set_solver | vm_compute; reflexivity ].
  - assert (s = 0%nat) as ->.
    { apply (f_equal fst) in Hsel. vm_compute in Hsel. by injection Hsel. }
    exact Hrun.
Defined.

(** No batch of spoons can allocate a clock. *)
Lemma allocate_out_of_stock_witness :
  (model.allocate clock_line [0; 1; 2]%nat spoon_store).1
  = Raise (OutOfStock "Out of stock for sku RETRO-CLOCK")
  ∧ (model.allocate clock_line [0; 1; 2]%nat spoon_store).2 = spoon_store.
Proof.
  destruct (allocate_out_of_stock clock_line [0; 1; 2]%nat spoon_store)
    as [[Hraise _] Hsku].
  destruct Hraise as [e He].
  - intros b Hb. rewrite !elem_of_cons, elem_of_nil in Hb.
    destruct Hb as [->|[->|[->|[]]]]; vm_compute; reflexivity.
  - destruct (Hsku e He) as [-> Hstore]. by rewrite He.
Defined.

(** A batch of two units, through allocations and a deallocation. *)
Lemma available_quantity_invariant_witness :
  Forall (λ r, r.1 = Return tt ∧ 0 ≤ Batch.available_quantity r.2)
    (history [ Allocate table_line;
               Allocate (OrderLine.OrderLine "order-2" "SMALL-TABLE" 1);
               Deallocate table_line;
               Allocate table_line ]
             (Batch.__init__ "batch-001" "SMALL-TABLE" 2 (Some today))).
Proof.
  refine (proj1 (available_quantity_invariant "batch-001" "SMALL-TABLE" 2 (Some today) _ _ _)).
  - lia.
  - repeat constructor.
Defined.

(** Re-allocating a line that the selected batch already holds succeeds and
    changes the allocations set of no batch. *)
Lemma allocate_may_change_no_batch :
  (∃ b, b ∈ [0%nat] ∧ Batch.can_allocate (table_store b) table_line = true)
  ∧ (model.allocate table_line [0%nat] table_store).1 = Return "batch-001"
  ∧ ¬ ∃ s, Batch._allocations ((model.allocate table_line [0%nat] table_store).2 s)
           ≠ Batch._allocations (table_store s).
Proof.
  split; [ exists 0%nat; split; [ set_solver | vm_compute; reflexivity ] | ].
  split; [ vm_compute; reflexivity | ].
  intros [s Hchanged]. apply Hchanged.
  rewrite kernel_run.
  assert ((model.select table_line [0%nat] table_store).1 = Return 0%nat) as ->
    by (vm_compute; reflexivity).
  apply allocated_in_present. unfold table_store. set_solver.
Qed.

Lemma deallocate_undoes_allocate_witness :
  let batch := Batch.__init__ "batch-001" "SMALL-TABLE" 20 (Some today) in
  (Batch.deallocate table_line (Batch.allocate table_line batch).2).2 = batch.
Proof.
  intros batch. apply (deallocate_undoes_allocate batch table_line). set_solver.
Defined.

Lemma allocate_frame_witness :
  ∃ ref h', model.allocate clock_line [1; 0]%nat clock_store = (Return ref, h').
Proof.
  apply (proj1 (allocate_frame clock_line [1; 0]%nat clock_store)).
  exists 1%nat. split; [ set_solver | vm_compute; reflexivity ].
Defined.

Lemma allocate_deallocate_never_raise_witness :
  let batch := Batch.__init__ "batch-001" "ELEGANT-LAMP" 2 (Some today) in
  let line := OrderLine.OrderLine "order-123" "ELEGANT-LAMP" 20 in
  Batch.allocate line batch = (Return tt, batch)
  ∧ Batch.deallocate line batch = (Return tt, batch).
Proof.
  intros batch line.
  destruct (allocate_deallocate_never_raise batch line) as (_ & _ & Hallocate & Hdeallocate).
  split; [ apply Hallocate; vm_compute; reflexivity | apply Hdeallocate; set_solver ].
Defined.

Lemma service_allocate_validates_sku_witness :
  services.allocate clock_line [0; 1; 2]%nat (services.mk spoon_store 0)
  = (Raise (InvalidSku "Invalid sku RETRO-CLOCK"), services.mk spoon_store 0).
Proof.
  destruct service_allocate_validates_sku as [Hservices _].
  destruct (Hservices clock_line [0; 1; 2]%nat (services.mk spoon_store 0))
    as [_ Hinvalid].
  apply (Hinvalid model.allocate).
  intros b Hb. rewrite !elem_of_cons, elem_of_nil in Hb.
  destruct Hb as [->|[->|[->|[]]]]; vm_compute; discriminate.
Defined.
End Instances.

(** * Further properties of the code *)

(** ** [Batch]: identity, and what a batch holds *)

Section BatchIdentity.
Implicit Types (self a b : Batch.t) (line : OrderLine.t).
Local Open Scope Z_scope.

Lemma append_char_nonempty (s : string) (ch : Ascii.ascii) :
  s +:+ String ch EmptyString ≠ EmptyString.
Proof. by destruct s. Qed.

Lemma append_char_inj (ch : Ascii.ascii) : ∀ s s' : string,
  s +:+ String ch EmptyString = s' +:+ String ch EmptyString → s = s'.
Proof.
  induction s as [|x s IH]; intros [|y s']; simpl; intros Heq.
  - done.
  - injection Heq as _ Heq. symmetry in Heq. by apply append_char_nonempty in Heq.
  - injection Heq as _ Heq. by apply append_char_nonempty in Heq.
  - injection Heq as -> Heq. f_equal. by apply IH.
Qed.

Lemma repr_inj a b : Batch.__repr__ a = Batch.__repr__ b ↔ Batch.reference a = Batch.reference b.
Proof.
  unfold Batch.__repr__. split; [ | by intros -> ].
  intros Heq. simpl in Heq. injection Heq as Heq. by apply append_char_inj in Heq.
Qed.

Lemma allocate_attributes self line :
  let self' := (Batch.allocate line self).2 in
  Batch.reference self' = Batch.reference self
  ∧ Batch.sku self' = Batch.sku self
  ∧ Batch.eta self' = Batch.eta self
  ∧ Batch._purchased_quantity self' = Batch._purchased_quantity self.
Proof.
  simpl. rewrite allocate_run. simpl. by destruct (Batch.can_allocate self line).
Qed.

Lemma deallocate_attributes self line :
  let self' := (Batch.deallocate line self).2 in
  Batch.reference self' = Batch.reference self
  ∧ Batch.sku self' = Batch.sku self
  ∧ Batch.eta self' = Batch.eta self
  ∧ Batch._purchased_quantity self' = Batch._purchased_quantity self.
Proof.
  simpl. rewrite deallocate_run. simpl. by case_bool_decide.
Qed.

(** X3.  Equality of batches is decided by the reference alone and is an
    equivalence: reflexive, symmetric and transitive, whatever the other
    attributes are.  Equal batches have the same hash and the same [repr],
    and batches with the same [repr] are equal.  A batch is not equal to a
    value that is not a batch.  A batch stays equal to what it was through
    [allocate] and [deallocate]. *)
Theorem batch_equality_by_reference (hash : string → Z) a b (c : Batch.t) line :
  Batch.__eq__ a (Batch.a_batch a) = true
  ∧ Batch.__eq__ a (Batch.a_batch b) = Batch.__eq__ b (Batch.a_batch a)
  ∧ (Batch.__eq__ a (Batch.a_batch b) = true →
     Batch.__eq__ b (Batch.a_batch c) = true →
     Batch.__eq__ a (Batch.a_batch c) = true)
  ∧ (Batch.__eq__ a (Batch.a_batch b) = true ↔ Batch.reference a = Batch.reference b)
  ∧ (Batch.__eq__ a (Batch.a_batch b) = true →
     Batch.__hash__ hash a = Batch.__hash__ hash b)
  ∧ (Batch.__eq__ a (Batch.a_batch b) = true ↔ Batch.__repr__ a = Batch.__repr__ b)
  ∧ Batch.__eq__ a (Batch.a_line line) = false
  ∧ Batch.__eq__ a Batch.none = false
  ∧ Batch.__eq__ a (Batch.a_batch (Batch.allocate line a).2) = true
  ∧ Batch.__eq__ a (Batch.a_batch (Batch.deallocate line a).2) = true.
Proof.
  assert (∀ x y, Batch.__eq__ x (Batch.a_batch y) = true
                 ↔ Batch.reference x = Batch.reference y) as Heq.
  { intros x y. simpl. rewrite bool_decide_eq_true. naive_solver. }
  split; [ by apply Heq | ].
  split.
  { simpl. apply bool_decide_ext. naive_solver. }
  split; [ rewrite !Heq; congruence | ].
  split; [ apply Heq | ].
  split; [ rewrite Heq; unfold Batch.__hash__; by intros -> | ].
  split; [ by rewrite Heq, repr_inj | ].
  do 2 (split; [ reflexivity | ]).
  split; apply Heq; symmetry.
  - apply allocate_attributes.
  - apply deallocate_attributes.
Qed.

Lemma perform_holds_own lines c self :
  (∀ l, c = Allocate l → l ∈ lines) →
  holds_own lines self → holds_own lines (perform c self).2.
Proof.
  intros Hc Hinv. destruct c as [line|line]; simpl.
  - rewrite allocate_run. simpl.
    destruct (Batch.can_allocate self line) eqn:Hcan; [ | done ].
    apply can_allocate_spec in Hcan as [Hsku _].
    intros l. simpl. rewrite elem_of_union, elem_of_singleton.
    intros [->|Hl]; [ | by apply Hinv ]. split; [ done | by apply Hc ].
  - rewrite deallocate_run. simpl. case_bool_decide; [ | done ].
    intros l. simpl. rewrite elem_of_difference. intros [Hl _]. by apply Hinv.
Qed.

Lemma perform_attributes c self :
  Batch.reference (perform c self).2 = Batch.reference self
  ∧ Batch.sku (perform c self).2 = Batch.sku self
  ∧ Batch.eta (perform c self).2 = Batch.eta self
  ∧ Batch._purchased_quantity (perform c self).2 = Batch._purchased_quantity self.
Proof. destruct c; [ apply allocate_attributes | apply deallocate_attributes ]. Qed.

Lemma history_holds_own lines calls : ∀ self,
  (∀ l, Allocate l ∈ calls → l ∈ lines) →
  holds_own lines self →
  Forall (λ r, holds_own lines r.2
               ∧ Batch.reference r.2 = Batch.reference self
               ∧ Batch.sku r.2 = Batch.sku self
               ∧ Batch.eta r.2 = Batch.eta self
               ∧ Batch._purchased_quantity r.2 = Batch._purchased_quantity self)
         (history calls self).
Proof.
  induction calls as [|c calls IH]; intros self Hcalls Hinv; simpl; [ constructor | ].
  assert (holds_own lines (perform c self).2) as Hinv'.
  { apply perform_holds_own; [ | done ]. intros l ->. apply Hcalls. left. }
  destruct (perform_attributes c self) as (Href & Hsku & Heta & Hqty).
  constructor; [ done | ].
  eapply Forall_impl; [ apply IH; [ | exact Hinv' ] | ].
  - intros l Hl. apply Hcalls. by right.
  - simpl. intros r (? & ? & ? & ? & ?). split; [ done | ]. repeat split; congruence.
Qed.

(** X4.  Whatever calls of [allocate] and [deallocate] a batch receives
    after its construction, with whatever lines, after every call the batch
    holds only lines of its own SKU that some call of [allocate] passed to
    it, and its reference, SKU, eta and purchased quantity are those it was
    constructed with. *)
Theorem batch_holds_only_own_lines
    (ref sku : string) (qty : Z) (eta : option date) (calls : list batch_call) :
  Forall (λ r, (∀ l, l ∈ Batch._allocations r.2 →
                     OrderLine.sku l = sku ∧ Allocate l ∈ calls)
               ∧ Batch.reference r.2 = ref
               ∧ Batch.sku r.2 = sku
               ∧ Batch.eta r.2 = eta
               ∧ Batch._purchased_quantity r.2 = qty)
         (history calls (Batch.__init__ ref sku qty eta)).
Proof.
  pose (lines := omap (λ c, match c with Allocate l => Some l | Deallocate _ => None end) calls).
  assert (∀ l, l ∈ lines ↔ Allocate l ∈ calls) as Hlines.
  { intros l. unfold lines. rewrite list_elem_of_omap. split.
    - by intros ([l'|l'] & Hc & [= <-]).
    - intros Hc. by exists (Allocate l). }
  eapply Forall_impl.
  - apply (history_holds_own lines calls).
    + intros l. by rewrite Hlines.
    + intros l. simpl. set_solver.
  - simpl. intros r (Hown & ? & Hsku & ? & ?).
    split; [ | done ]. intros l Hl. destruct (Hown l Hl) as [Hl_sku Hl_in].
    split; [ congruence | by apply Hlines ].
Qed.
End BatchIdentity.

(** ** [Batch]: how [allocate] and [deallocate] compose *)

Section BatchComposition.
Implicit Types (self : Batch.t) (line : OrderLine.t).
Local Open Scope Z_scope.

Lemma allocate_fresh self line :
  line ∉ Batch._allocations self →
  OrderLine.sku line = Batch.sku self →
  OrderLine.qty line ≤ Batch.available_quantity self →
  (Batch.allocate line self).2
  = Batch.with_allocations self ({[line]} ∪ Batch._allocations self)
  ∧ Batch.available_quantity (Batch.allocate line self).2
    = Batch.available_quantity self - OrderLine.qty line.
Proof.
  intros Hout Hsku Hqty. rewrite allocate_run. simpl.
  rewrite (proj2 (can_allocate_spec self line)) by done.
  split; [ done | ].
  rewrite available_with_allocations, sum_qty_add by done.
  unfold Batch.available_quantity. rewrite allocated_quantity_sum. lia.
Qed.

(** X5.  Two different lines of the batch's SKU, neither allocated yet,
    whose quantities are not negative and fit together into the available
    quantity, can be allocated in either order: both orders leave the same
    batch, which holds both lines, and its available quantity is the former
    one minus both quantities. *)
Theorem allocate_commutes self (l1 l2 : OrderLine.t) :
  l1 ≠ l2 →
  l1 ∉ Batch._allocations self → l2 ∉ Batch._allocations self →
  OrderLine.sku l1 = Batch.sku self → OrderLine.sku l2 = Batch.sku self →
  0 ≤ OrderLine.qty l1 → 0 ≤ OrderLine.qty l2 →
  OrderLine.qty l1 + OrderLine.qty l2 ≤ Batch.available_quantity self →
  (Batch.allocate l2 (Batch.allocate l1 self).2).2
  = (Batch.allocate l1 (Batch.allocate l2 self).2).2
  ∧ Batch._allocations (Batch.allocate l2 (Batch.allocate l1 self).2).2
    = {[l1; l2]} ∪ Batch._allocations self
  ∧ Batch.available_quantity (Batch.allocate l2 (Batch.allocate l1 self).2).2
    = Batch.available_quantity self - OrderLine.qty l1 - OrderLine.qty l2.
Proof.
  intros Hne Hout1 Hout2 Hsku1 Hsku2 Hpos1 Hpos2 Hfit.
  destruct (allocate_fresh self l1) as [Hst1 Hav1]; [ done | done | lia | ].
  destruct (allocate_fresh self l2) as [Hst2 Hav2]; [ done | done | lia | ].
  destruct (allocate_fresh (Batch.allocate l1 self).2 l2) as [Hst12 Hav12].
  { rewrite Hst1. simpl. set_solver. }
  { by rewrite Hst1. }
  { lia. }
  destruct (allocate_fresh (Batch.allocate l2 self).2 l1) as [Hst21 Hav21].
  { rewrite Hst2. simpl. set_solver. }
  { by rewrite Hst2. }
  { lia. }
  split; [ | split ].
  - rewrite Hst12, Hst21, Hst1, Hst2. unfold Batch.with_allocations. simpl.
    f_equal. set_solver.
  - rewrite Hst12, Hst1. simpl. set_solver.
  - lia.
Qed.

(** X6.  [deallocate] of an allocated line takes that line, and no other,
    out of the batch and gives exactly its quantity back to the available
    quantity.  If the line has the batch's SKU and the available quantity
    was not negative, allocating the line again restores the batch. *)
Theorem deallocate_gives_back self line :
  line ∈ Batch._allocations self →
  Batch._allocations (Batch.deallocate line self).2
  = Batch._allocations self ∖ {[line]}
  ∧ Batch.available_quantity (Batch.deallocate line self).2
    = Batch.available_quantity self + OrderLine.qty line
  ∧ (OrderLine.sku line = Batch.sku self →
     0 ≤ Batch.available_quantity self →
     (Batch.allocate line (Batch.deallocate line self).2).2 = self).
Proof.
  intros Hin. rewrite deallocate_run. simpl.
  rewrite bool_decide_eq_true_2 by done.
  split; [ done | ].
  assert (Batch.available_quantity
            (Batch.with_allocations self (Batch._allocations self ∖ {[line]}))
          = Batch.available_quantity self + OrderLine.qty line) as Hback.
  { rewrite available_with_allocations, sum_qty_remove by done.
    unfold Batch.available_quantity. rewrite allocated_quantity_sum. lia. }
  split; [ exact Hback | ].
  intros Hsku Hinv.
  destruct (allocate_fresh
              (Batch.with_allocations self (Batch._allocations self ∖ {[line]})) line)
    as [Hst _].
  { simpl. set_solver. }
  { done. }
  { rewrite Hback. lia. }
  rewrite Hst. unfold Batch.with_allocations. simpl.
  replace ({[line]} ∪ Batch._allocations self ∖ {[line]})
    with (Batch._allocations self).
  - by destruct self.
  - apply set_eq. intros x. destruct (decide (x = line)); set_solver.
Qed.
End BatchComposition.

(** ** The kernel: which batch, and what a call leaves *)

Section KernelSelection.
Context {A : Type}.

Lemma next_where_head (cond : A → bool) l s :
  next_where cond l = Return s → head (filter (λ b, cond b = true) l) = Some s.
Proof.
  induction l as [|y l IH]; simpl; [ done | ].
  destruct (cond y) eqn:Hy.
  - intros [= <-]. by rewrite filter_cons_True.
  - intros Hs. rewrite filter_cons_False by congruence. by apply IH.
Qed.

Lemma head_filter_and (P Q : A → Prop)
    `{∀ x, Decision (P x)} `{∀ x, Decision (Q x)} l s :
  head (filter P l) = Some s → Q s → head (filter (λ b, P b ∧ Q b) l) = Some s.
Proof.
  intros Hhead HQ. induction l as [|y l IH]; simpl in *; [ done | ].
  rewrite filter_cons in Hhead. rewrite filter_cons.
  destruct (decide (P y)) as [Hy|Hy].
  - injection Hhead as ->. by rewrite decide_True.
  - rewrite decide_False by tauto. by apply IH.
Qed.

Lemma insert_sorted_ext (lt lt' : A → A → bool) x l :
  (∀ a b, lt a b = lt' a b) → insert_sorted lt x l = insert_sorted lt' x l.
Proof. intros Hext. induction l as [|y l IH]; simpl; [ done | ]. by rewrite Hext, IH. Qed.

Lemma sorted_ext (lt lt' : A → A → bool) l :
  (∀ a b, lt a b = lt' a b) → sorted lt l = sorted lt' l.
Proof.
  intros Hext. induction l as [|x l IH]; simpl; [ done | ].
  by rewrite IH, (insert_sorted_ext lt lt').
Qed.

Lemma next_where_ext (cond cond' : A → bool) l :
  (∀ b, cond b = cond' b) → next_where cond l = next_where cond' l.
Proof. intros Hext. induction l as [|y l IH]; simpl; [ done | ]. by rewrite Hext, IH. Qed.
End KernelSelection.

Section KernelFurther.
Implicit Types (line : OrderLine.t) (batches : list loc) (h : store).
Local Open Scope Z_scope.

Lemma gt_false_both (a b : Batch.t) :
  Batch.__gt__ a b = false → Batch.__gt__ b a = false → Batch.eta a = Batch.eta b.
Proof.
  rewrite !gt_false_spec.
  intros [Ha|(d & d' & Ha & Hb & Hle)] [Hb'|(e & e' & Hb' & Ha' & Hle')];
    simplify_eq; try congruence.
  rewrite Ha, Hb. f_equal. lia.
Qed.

(** X15.  [__gt__] orders the batches by eta as a strict weak order with
    the batches in stock least: no batch is greater than itself; if [a] is
    greater than [b] then [b] is not greater than [a]; "greater" is
    transitive, and so is "not greater"; two batches are not greater than
    one another exactly when they have the same eta; a batch in stock is
    greater than no batch, and a dated batch is greater than every batch in
    stock. *)
Theorem gt_strict_weak_order (a b c : Batch.t) :
  Batch.__gt__ a a = false
  ∧ (Batch.__gt__ a b = true → Batch.__gt__ b a = false)
  ∧ (Batch.__gt__ a b = true → Batch.__gt__ b c = true → Batch.__gt__ a c = true)
  ∧ (Batch.__gt__ a b = false → Batch.__gt__ b c = false → Batch.__gt__ a c = false)
  ∧ (Batch.__gt__ a b = false ∧ Batch.__gt__ b a = false ↔ Batch.eta a = Batch.eta b)
  ∧ (Batch.eta a = None → Batch.__gt__ a b = false)
  ∧ (Batch.eta a ≠ None → Batch.eta b = None → Batch.__gt__ a b = true).
Proof.
  assert (∀ x : Batch.t, Batch.__gt__ x x = false) as Hirrefl.
  { intros x. unfold Batch.__gt__. destruct (Batch.eta x); [ | done ].
    apply not_true_is_false. rewrite Z.gtb_gt. lia. }
  split; [ apply Hirrefl | ].
  split; [ apply gt_asym | ].
  split.
  { unfold Batch.__gt__.
    destruct (Batch.eta a), (Batch.eta b), (Batch.eta c); try done.
    rewrite !Z.gtb_gt. lia. }
  split; [ apply gt_false_trans | ].
  split.
  { split; [ intros [? ?]; by apply gt_false_both | ].
    unfold Batch.__gt__. intros ->. destruct (Batch.eta b); [ | done ].
    split; apply not_true_is_false; rewrite Z.gtb_gt; lia. }
  unfold Batch.__gt__. split.
  - by intros ->.
  - intros Ha ->. by destruct (Batch.eta a).
Qed.

(** X7.  Among the candidates that can allocate the line and have the eta
    of the selected batch, the kernel selects the one that comes first in
    the list it was given; together with the preference for the least eta
    this determines the selected batch. *)
Theorem allocate_tie_break line batches h s :
  (model.select line batches h).1 = Return s →
  head (filter (λ b, Batch.can_allocate (h b) line = true
                     ∧ Batch.eta (h b) = Batch.eta (h s)) batches) = Some s
  ∧ model.allocate line batches h
    = (Return (Batch.reference (h s)), allocated_in h line s).
Proof.
  intros Hsel. split; [ | by rewrite kernel_run, Hsel ].
  unfold model.select in Hsel. simpl in Hsel.
  apply next_where_head in Hsel.
  apply (head_filter_and _ (λ b, Batch.eta (h b) = Batch.eta (h s))) in Hsel; [ | done ].
  rewrite sorted_filter in Hsel; [ done | ].
  intros a b [_ Ha] [_ Hb]. unfold model.__lt__, Batch.__gt__. rewrite Ha, Hb.
  destruct (Batch.eta (h s)); [ | done ].
  apply not_true_is_false. rewrite Z.gtb_gt. lia.
Qed.

(** X8.  The order of the list matters for ties only.  For two lists with
    the same batches in another order, the kernel fails on both or on none,
    with the same outcome when it fails; and when it succeeds, the batches
    selected from the two lists have the same eta. *)
Theorem allocate_permutation line batches batches' h :
  batches ≡ₚ batches' →
  (∀ e, (model.allocate line batches h).1 = Raise e →
        model.allocate line batches' h = model.allocate line batches h)
  ∧ (∀ s, (model.select line batches h).1 = Return s →
      ∃ s', (model.select line batches' h).1 = Return s'
            ∧ s' ∈ batches
            ∧ Batch.can_allocate (h s') line = true
            ∧ Batch.eta (h s') = Batch.eta (h s)).
Proof.
  intros Hperm. split.
  - intros e. rewrite !kernel_run.
    destruct (model.select line batches h).1 as [s|e0] eqn:Hsel; [ done | ].
    intros _.
    destruct (model.select line batches' h).1 as [s'|e1] eqn:Hsel'; [ | done ].
    apply select_return in Hsel' as (Hs' & Hcan' & _).
    rewrite <- Hperm in Hs'.
    by rewrite (select_raise _ _ _ _ Hsel s' Hs') in Hcan'.
  - intros s Hsel. apply select_return in Hsel as (Hs & Hcan & Hmin).
    destruct (select_some line batches' h s) as [s' Hsel']; [ by rewrite <- Hperm | done | ].
    exists s'. split; [ done | ].
    apply select_return in Hsel' as (Hs' & Hcan' & Hmin').
    rewrite <- Hperm in Hs'. split; [ done | ]. split; [ done | ].
    apply gt_false_both.
    + apply Hmin'; [ by rewrite <- Hperm | done ].
    + by apply Hmin.
Qed.

Lemma allocated_in_other h line (s b : loc) :
  b ≠ s → allocated_in h line s b = h b.
Proof. intros Hne. unfold allocated_in. by rewrite (fn_lookup_insert_ne (A:=loc) h s b). Qed.

Lemma allocated_in_self h line (s : loc) :
  allocated_in h line s s = (Batch.allocate line (h s)).2.
Proof. unfold allocated_in. by rewrite (fn_lookup_insert (A:=loc) h s). Qed.

Lemma allocated_in_cases h line (s b : loc) :
  allocated_in h line s b = h b
  ∨ allocated_in h line s b = (Batch.allocate line (h b)).2.
Proof.
  destruct (decide (b = s)) as [->|Hne].
  - right. apply allocated_in_self.
  - left. by apply allocated_in_other.
Qed.

Lemma allocated_in_eta h line (s b : loc) :
  Batch.eta (allocated_in h line s b) = Batch.eta (h b).
Proof.
  destruct (allocated_in_cases h line s b) as [->| ->]; [ done | ].
  apply allocate_attributes.
Qed.

Lemma allocated_in_lt h line (s : loc) (a b : loc) :
  model.__lt__ (allocated_in h line s) a b = model.__lt__ h a b.
Proof. unfold model.__lt__, Batch.__gt__. by rewrite !allocated_in_eta. Qed.

(** The store that a call of the kernel leaves holds, at every identity,
    the batch that was there or that batch after [allocate(line)]. *)
Lemma kernel_cases line batches h (b : loc) :
  (model.allocate line batches h).2 b = h b
  ∨ (model.allocate line batches h).2 b = (Batch.allocate line (h b)).2.
Proof.
  rewrite kernel_run. destruct (model.select line batches h).1; simpl.
  - apply allocated_in_cases.
  - by left.
Qed.
End KernelFurther.

Section KernelRepeated.
Implicit Types (line : OrderLine.t) (batches : list loc) (h : store).
Local Open Scope Z_scope.

Lemma select_allocated_in line batches h (s : loc) :
  Batch.can_allocate (h s) line = true →
  Batch.can_allocate (allocated_in h line s s) line = true →
  (model.select line batches (allocated_in h line s)).1
  = (model.select line batches h).1.
Proof.
  intros Hcan Hcan'. unfold model.select. simpl.
  rewrite (sorted_ext _ (model.__lt__ h)) by apply allocated_in_lt.
  apply next_where_ext. intros b. destruct (decide (b = s)) as [->|Hne].
  - by rewrite Hcan, Hcan'.
  - by rewrite allocated_in_other.
Qed.

Lemma allocated_in_holds line h (s : loc) :
  Batch.can_allocate (h s) line = true →
  line ∈ Batch._allocations (allocated_in h line s s).
Proof.
  intros Hcan. rewrite allocated_in_self, allocate_run. simpl. rewrite Hcan.
  simpl. set_solver.
Qed.

(** X9.  The kernel does not remember the lines it has allocated.  Called
    again with the same line after a call that selected [s]: if [s] can
    still allocate the line, the kernel selects [s] again, returns the same
    reference and changes no batch; if [s] cannot any more, a successful
    second call selects another batch, and then two batches hold the line. *)
Theorem allocate_again line batches h (s : loc) :
  (model.select line batches h).1 = Return s →
  let h' := allocated_in h line s in
  (Batch.can_allocate (h' s) line = true →
   (model.select line batches h').1 = Return s
   ∧ (model.allocate line batches h').1 = Return (Batch.reference (h s))
   ∧ ∀ b, (model.allocate line batches h').2 b = h' b)
  ∧ (Batch.can_allocate (h' s) line = false →
     ∀ s2, (model.select line batches h').1 = Return s2 →
       s2 ≠ s
       ∧ line ∈ Batch._allocations ((model.allocate line batches h').2 s)
       ∧ line ∈ Batch._allocations ((model.allocate line batches h').2 s2)).
Proof.
  intros Hsel h'. pose proof Hsel as Hsel0.
  apply select_return in Hsel as (Hs & Hcan & _).
  pose proof (allocated_in_holds line h s Hcan) as Hheld. fold h' in Hheld.
  split.
  - intros Hcan'.
    assert ((model.select line batches h').1 = Return s) as Hsel'.
    { unfold h'. by rewrite select_allocated_in. }
    split; [ done | ]. rewrite kernel_run, Hsel'. simpl. split.
    + f_equal. unfold h'. rewrite allocated_in_self. apply allocate_attributes.
    + intros b. destruct (decide (b = s)) as [->|Hne].
      * rewrite allocated_in_self, allocate_run. simpl. rewrite Hcan'.
        rewrite union_present by done. apply with_allocations_id.
      * by apply allocated_in_other.
  - intros Hcannot s2 Hsel2. rewrite kernel_run, Hsel2. simpl.
    apply select_return in Hsel2 as (Hs2 & Hcan2 & _).
    assert (s2 ≠ s) as Hne by (intros ->; congruence).
    split; [ done | ]. split.
    + by rewrite allocated_in_other.
    + by apply allocated_in_holds.
Qed.

(** X10.  What a call of the kernel, successful or not, keeps of every
    batch of the store: its reference, SKU, eta and purchased quantity; the
    lines it held, to which only the line of the call may be added; a
    non-negative available quantity, if it was non-negative; and the
    property of holding lines of its own SKU only, if it had it. *)
Theorem allocate_keeps_batches line batches h (b : loc) :
  let h' := (model.allocate line batches h).2 in
  Batch.reference (h' b) = Batch.reference (h b)
  ∧ Batch.sku (h' b) = Batch.sku (h b)
  ∧ Batch.eta (h' b) = Batch.eta (h b)
  ∧ Batch._purchased_quantity (h' b) = Batch._purchased_quantity (h b)
  ∧ Batch._allocations (h b) ⊆ Batch._allocations (h' b)
  ∧ Batch._allocations (h' b) ⊆ {[line]} ∪ Batch._allocations (h b)
  ∧ (0 ≤ Batch.available_quantity (h b) → 0 ≤ Batch.available_quantity (h' b))
  ∧ ((∀ l, l ∈ Batch._allocations (h b) → OrderLine.sku l = Batch.sku (h b)) →
     ∀ l, l ∈ Batch._allocations (h' b) → OrderLine.sku l = Batch.sku (h' b)).
Proof.
  intros h'. unfold h'.
  destruct (kernel_cases line batches h b) as [-> | ->].
  { repeat split; try done; set_solver. }
  destruct (allocate_attributes (h b) line) as (Href & Hsku & Heta & Hqty).
  do 4 (split; [ done | ]).
  split; [ | split; [ | split ] ].
  - rewrite allocate_run. simpl. destruct (Batch.can_allocate (h b) line); set_solver.
  - rewrite allocate_run. simpl. destruct (Batch.can_allocate (h b) line); set_solver.
  - apply allocate_available.
  - intros Hown l. rewrite Hsku. rewrite allocate_run. simpl.
    destruct (Batch.can_allocate (h b) line) eqn:Hcan; [ | by apply Hown ].
    apply can_allocate_spec in Hcan as [Hline _]. simpl.
    rewrite elem_of_union, elem_of_singleton. intros [->|Hl]; [ done | by apply Hown ].
Qed.
End KernelRepeated.

(** ** The service layer: commits, and the repository *)

Section ServicesFurther.
Implicit Types (line : OrderLine.t) (repo : list loc) (w : services.world).

Lemma services_allocate_run line repo w :
  services.allocate line repo w
  = if services.is_valid_sku (services.batches_of w) (OrderLine.sku line) repo
    then match (model.select line repo (services.batches_of w)).1 with
         | Return s =>
             (Return (Batch.reference (services.batches_of w s)),
              services.mk (allocated_in (services.batches_of w) line s)
                          (S (services.commits w)))
         | Raise _ => (Raise (model.out_of_stock line), w)
         end
    else (Raise (services.invalid_sku line), w).
Proof.
  destruct (services.is_valid_sku _ _ _) eqn:Hvalid.
  - destruct (model.select line repo (services.batches_of w)).1 as [s|e] eqn:Hsel;
      unfold services.allocate, services.allocate_via, mbind, M_bind, get; simpl;
      rewrite Hvalid; simpl; unfold services.on_store; rewrite kernel_run, Hsel;
      simpl; [ done | by destruct w ].
  - unfold services.allocate. by apply services_allocate_invalid.
Qed.

(** X11.  The service [allocate] of chapter 4 commits the session exactly
    when the allocation succeeds, once, after the kernel has allocated;
    it succeeds exactly when a batch that the repository lists can allocate
    the line, and it then returns the reference of the batch that the kernel
    selects.  When it raises, nothing has changed: no batch and no commit.
    It raises the out-of-stock condition exactly when the SKU is known but
    no listed batch can allocate the line. *)
Theorem services_allocate_commits line repo w :
  let r := services.allocate line repo w in
  let h := services.batches_of w in
  services.commits r.2
  = (if is_return r.1 then S (services.commits w) else services.commits w)
  ∧ (is_return r.1 = false → r.2 = w)
  ∧ (is_return r.1 = true ↔ ∃ b, b ∈ repo ∧ Batch.can_allocate (h b) line = true)
  ∧ (∀ s, (model.select line repo h).1 = Return s →
       r = (Return (Batch.reference (h s)),
            services.mk (allocated_in h line s) (S (services.commits w))))
  ∧ (r.1 = Raise (OutOfStock ("Out of stock for sku " +:+ OrderLine.sku line))
     ↔ (∃ b, b ∈ repo ∧ Batch.sku (h b) = OrderLine.sku line)
       ∧ ∀ b, b ∈ repo → Batch.can_allocate (h b) line = false).
Proof.
  intros r h. subst r h. rewrite services_allocate_run.
  destruct (services.is_valid_sku _ _ _) eqn:Hvalid.
  - pose proof Hvalid as Hknown. apply is_valid_sku_spec in Hknown.
    destruct (model.select line repo (services.batches_of w)).1 as [s|e] eqn:Hsel; simpl.
    + apply select_return in Hsel as (Hs & Hcan & _).
      split; [ done | ]. split; [ done | ].
      split; [ split; [ intros _; by exists s | done ] | ].
      split; [ by intros ? [= <-] | ].
      split; [ done | ]. intros [_ Hnone]. by rewrite (Hnone s Hs) in Hcan.
    + pose proof (select_raise _ _ _ _ Hsel) as Hnone.
      split; [ done | ]. split; [ done | ]. split.
      { split; [ done | ]. intros (b & Hb & Hcan). by rewrite (Hnone b Hb) in Hcan. }
      split; [ done | ]. done.
  - simpl. pose proof Hvalid as Hunknown.
    rewrite is_valid_sku_false in Hunknown.
    assert (∀ b, b ∈ repo → Batch.can_allocate (services.batches_of w b) line = false)
      as Hnone.
    { intros b Hb. apply not_true_is_false. intros [Hsku _]%can_allocate_spec.
      by apply (Hunknown b Hb). }
    split; [ done | ]. split; [ done | ]. split.
    { split; [ done | ]. intros (b & Hb & Hcan). by rewrite (Hnone b Hb) in Hcan. }
    split.
    { intros s Hsel. apply select_return in Hsel as (Hs & Hcan & _).
      by rewrite (Hnone s Hs) in Hcan. }
    split; [ done | ]. intros [(b & Hb & Hsku) _]. by destruct (Hunknown b Hb).
Qed.
End ServicesFurther.

Section UnitOfWorkFurther.
Context {U : Type} (uow_enter uow_exit uow_commit : U → U).
Implicit Types (w : service_layer.world (U:=U)) (sku : string).

Lemma first_row_some w sku p :
  first_row w sku = Some p →
  p ∈ service_layer.rows w ∧ Product.sku (service_layer.products w p) = sku.
Proof.
  unfold first_row. intros [Hin Hsku]%find_some.
  apply bool_decide_eq_true in Hsku. by rewrite list_elem_of_In.
Qed.

Lemma first_row_is_some w sku p :
  p ∈ service_layer.rows w → Product.sku (service_layer.products w p) = sku →
  is_Some (first_row w sku).
Proof.
  intros Hp Hsku. destruct (first_row w sku) eqn:Hfind; [ by eexists | ].
  unfold first_row in Hfind. rewrite find_product_none in Hfind.
  by destruct (Hfind p Hp).
Qed.

Lemma get_product_run sku w :
  service_layer.get_product sku w
  = match first_row w sku with
    | Some p =>
        (Return (Some p),
         service_layer.mk (service_layer.products w) (service_layer.batches_of w)
           (service_layer.rows w) ({[p]} ∪ service_layer.seen w) (service_layer.uow w))
    | None => (Return None, w)
    end.
Proof.
  unfold service_layer.get_product, service_layer._get, first_row,
    mbind, M_bind, get, modify, mret, M_ret. simpl.
  by destruct (find _ _).
Qed.
Lemma uow_allocate_run orderid sku qty w :
  service_layer.allocate uow_enter uow_exit uow_commit orderid sku qty w
  = match first_row w sku with
    | None =>
        (Raise (InvalidSku ("Invalid sku " +:+ sku)), through_uow uow_enter uow_exit w)
    | Some p =>
        match Product.allocate (OrderLine.OrderLine orderid sku qty)
                (service_layer.products w p, service_layer.batches_of w) with
        | (Return ref, (self', h')) =>
            (Return ref,
             service_layer.mk (<[p := self']> (service_layer.products w)) h'
               (service_layer.rows w) ({[p]} ∪ service_layer.seen w)
               (uow_exit (uow_commit (uow_enter (service_layer.uow w)))))
        | (Raise e, (self', h')) =>
            (Raise e,
             service_layer.mk (<[p := self']> (service_layer.products w)) h'
               (service_layer.rows w) ({[p]} ∪ service_layer.seen w)
               (uow_exit (uow_enter (service_layer.uow w))))
        end
    end.
Proof.
  destruct (first_row w sku) as [p|] eqn:Hfind.
  - unfold service_layer.allocate, service_layer.allocate_via, service_layer.with_uow.
    unfold mbind at 1. unfold M_bind at 1. unfold service_layer.on_uow at 1.
    unfold modify at 1. unfold try_except.
    unfold mbind at 1. unfold M_bind at 1.
    unfold mbind at 1. unfold M_bind at 1.
    rewrite get_product_run. unfold first_row in *. simpl. rewrite Hfind.
    unfold mbind, M_bind, service_layer.call_product, service_layer.on_uow, modify,
      mret, M_ret, raise. simpl.
    destruct (Product.allocate _ _) as [[ref|e] [self' h']]; reflexivity.
  - unfold service_layer.allocate. by apply uow_allocate_invalid.
Qed.
End UnitOfWorkFurther.

Section UnitOfWorkClaims.
Context {U : Type} (uow_enter uow_exit uow_commit : U → U).
Implicit Types (w : service_layer.world (U:=U)) (sku : string).
Local Open Scope Z_scope.

(** X12.  The repository of chapter 8.  [get(sku)] returns the first row
    whose product has the SKU and records that product in [seen], changing
    nothing else; when no row has the SKU it returns [None] and changes
    nothing.  [add(p)] never raises, records [p] in [seen] and makes it a
    row after the rows there were: a [get] with the SKU of [p] then finds a
    product of that SKU, which is [p] itself when no earlier row has that
    SKU. *)
Theorem repository_get_add sku w (p : ploc) :
  match service_layer.get_product sku w with
  | (Return (Some q), w') =>
      first_row w sku = Some q
      ∧ q ∈ service_layer.rows w
      ∧ Product.sku (service_layer.products w q) = sku
      ∧ w' = service_layer.mk (service_layer.products w) (service_layer.batches_of w)
               (service_layer.rows w) ({[q]} ∪ service_layer.seen w)
               (service_layer.uow w)
  | (Return None, w') =>
      w' = w
      ∧ ∀ q, q ∈ service_layer.rows w → Product.sku (service_layer.products w q) ≠ sku
  | (Raise _, _) => False
  end
  ∧ service_layer.add_product p w
    = (Return tt,
       service_layer.mk (service_layer.products w) (service_layer.batches_of w)
         (service_layer.rows w ++ [p]) ({[p]} ∪ service_layer.seen w)
         (service_layer.uow w))
  ∧ ∃ q, (service_layer.get_product (Product.sku (service_layer.products w p))
            (service_layer.add_product p w).2).1 = Return (Some q)
         ∧ Product.sku (service_layer.products w q)
           = Product.sku (service_layer.products w p)
         ∧ ((∀ r, r ∈ service_layer.rows w →
                  Product.sku (service_layer.products w r)
                  ≠ Product.sku (service_layer.products w p)) →
            q = p).
Proof.
  split; [ | split ].
  - rewrite get_product_run. destruct (first_row w sku) as [q|] eqn:Hfind.
    + destruct (first_row_some _ _ _ Hfind) as [Hq Hsku]. by repeat split.
    + split; [ done | ]. by apply find_product_none.
  - reflexivity.
  - set (w1 := (service_layer.add_product p w).2).
    set (sku_p := Product.sku (service_layer.products w p)).
    assert (is_Some (first_row w1 sku_p)) as [q Hfind].
    { apply first_row_is_some with p; [ | done ]. simpl. set_solver. }
    exists q. rewrite get_product_run, Hfind. split; [ done | ].
    destruct (first_row_some _ _ _ Hfind) as [Hq Hsku].
    split; [ done | ]. intros Hnew. simpl in Hq.
    apply elem_of_app in Hq as [Hq|Hq]; [ | set_solver ].
    by destruct (Hnew q Hq).
Qed.

(** X13.  The service [allocate] of chapter 8, for a SKU that the
    repository knows.  Its outcome is the outcome of the kernel on the
    batches of the first product with that SKU.  The unit of work is entered
    and left once, and it is committed in between exactly when the
    allocation succeeds.  The version number of the product is one more
    after a success and the same after a failure.  Successful or not, the
    call records the product in [seen] and changes no other product and no
    row. *)
Theorem uow_allocate_outcomes (orderid sku : string) (qty : Z) w (p : ploc) :
  first_row w sku = Some p →
  let r := service_layer.allocate uow_enter uow_exit uow_commit orderid sku qty w in
  let k := model.allocate (OrderLine.OrderLine orderid sku qty)
             (Product.batches (service_layer.products w p))
             (service_layer.batches_of w) in
  r.1 = k.1
  ∧ service_layer.batches_of r.2 = k.2
  ∧ service_layer.uow r.2
    = (if is_return k.1
       then uow_exit (uow_commit (uow_enter (service_layer.uow w)))
       else uow_exit (uow_enter (service_layer.uow w)))
  ∧ Product.version_number (service_layer.products r.2 p)
    = (if is_return k.1
       then Product.version_number (service_layer.products w p) + 1
       else Product.version_number (service_layer.products w p))
  ∧ (∀ q, q ≠ p → service_layer.products r.2 q = service_layer.products w q)
  ∧ service_layer.seen r.2 = {[p]} ∪ service_layer.seen w
  ∧ service_layer.rows r.2 = service_layer.rows w.
Proof.
  intros Hfind r k. subst r k. rewrite uow_allocate_run, Hfind.
  rewrite product_allocate_run. simpl.
  destruct (model.allocate _ _ _) as [[ref|e] h']; simpl.
  - repeat split; try done.
    + by rewrite (fn_lookup_insert (A:=ploc)).
    + intros q Hne. by rewrite (fn_lookup_insert_ne (A:=ploc)).
  - repeat split; try done.
    + by rewrite (fn_lookup_insert (A:=ploc)).
    + intros q Hne. by rewrite (fn_lookup_insert_ne (A:=ploc)).
Qed.
(** The world that [add_batch] leaves. *)
Lemma add_batch_run (version0 : Z) (nb : loc) (np : ploc)
    (ref sku : string) (qty : Z) (eta : option date) w :
  service_layer.add_batch uow_enter uow_exit uow_commit version0 nb np ref sku qty eta w
  = (Return tt,
     let p := default np (first_row w sku) in
     let self := match first_row w sku with
                 | Some p => service_layer.products w p
                 | None => Product.mk sku [] version0
                 end in
     service_layer.mk
       (<[p := Product.mk (Product.sku self) (Product.batches self ++ [nb])
                          (Product.version_number self)]>
          (match first_row w sku with
           | Some _ => service_layer.products w
           | None => <[np := Product.mk sku [] version0]> (service_layer.products w)
           end))
       (<[nb := Batch.__init__ ref sku qty eta]> (service_layer.batches_of w))
       (match first_row w sku with
        | Some _ => service_layer.rows w
        | None => service_layer.rows w ++ [np]
        end)
       ({[p]} ∪ service_layer.seen w)
       (uow_exit (uow_commit (uow_enter (service_layer.uow w))))).
Proof.
  unfold service_layer.add_batch, service_layer.with_uow.
  unfold mbind at 1. unfold M_bind at 1. unfold service_layer.on_uow at 1.
  unfold modify at 1. unfold try_except.
  unfold mbind at 1. unfold M_bind at 1.
  unfold mbind at 1. unfold M_bind at 1.
  rewrite get_product_run. unfold first_row. simpl.
  destruct (find _ _) as [p|] eqn:Hfind; simpl.
  - reflexivity.
  - unfold mbind, M_bind, service_layer.new_product, service_layer.add_product,
      service_layer._add, service_layer.new_batch, service_layer.batches_append,
      service_layer.on_uow, modify, mret, M_ret. simpl.
    by rewrite (fn_lookup_insert (A:=ploc)).
Qed.
Lemma find_app_new (f : ploc → bool) (rows : list ploc) (np : ploc) :
  (∀ q, q ∈ rows → f q = true → q = np) → f np = true →
  find f (rows ++ [np]) = Some np.
Proof.
  intros Hrows Hnp. induction rows as [|q rows IH]; simpl.
  - by rewrite Hnp.
  - destruct (f q) eqn:Hq.
    + f_equal. apply Hrows; [ left | done ].
    + apply IH. intros r Hr. apply Hrows. by right.
Qed.

Lemma first_row_ext w w' sku :
  service_layer.rows w' = service_layer.rows w →
  (∀ q, Product.sku (service_layer.products w' q)
        = Product.sku (service_layer.products w q)) →
  first_row w' sku = first_row w sku.
Proof.
  unfold first_row. intros -> Hsku.
  induction (service_layer.rows w) as [|q rows IH]; simpl; [ done | ].
  by rewrite Hsku, IH.
Qed.

(** The kernel on a single batch. *)
Lemma kernel_single line (b : loc) (h : store) :
  Batch.can_allocate (h b) line = true →
  model.allocate line [b] h = (Return (Batch.reference (h b)), allocated_in h line b).
Proof.
  intros Hcan. rewrite kernel_run. unfold model.select. simpl. by rewrite Hcan.
Qed.

(** X14.  [add_batch] never raises; it enters, commits and leaves the unit
    of work once.  It creates the batch as constructed from its arguments
    and touches no other batch; the batch becomes the last batch of the first
    product with the SKU, a product that the call creates, empty, after the
    rows there were when no product has the SKU.  After [add_batch] the SKU
    is known: [allocate] for that SKU never raises the invalid-SKU
    condition.  And if the SKU was not known before, an [allocate] of a
    quantity that the new batch has allocates to the new batch: it returns
    its reference, takes the quantity from it, and increments the version
    number of the new product. *)
Theorem add_batch_then_allocate (version0 : Z) (nb : loc) (np : ploc)
    (ref sku : string) (qty : Z) (eta : option date) w :
  let a := service_layer.add_batch uow_enter uow_exit uow_commit
             version0 nb np ref sku qty eta w in
  let w1 := a.2 in
  a.1 = Return tt
  ∧ service_layer.uow w1 = uow_exit (uow_commit (uow_enter (service_layer.uow w)))
  ∧ service_layer.batches_of w1 nb = Batch.__init__ ref sku qty eta
  ∧ (∀ b, b ≠ nb → service_layer.batches_of w1 b = service_layer.batches_of w b)
  ∧ (∃ p, first_row w1 sku = Some p
          ∧ p = default np (first_row w sku)
          ∧ p ∈ service_layer.seen w1
          ∧ Product.batches (service_layer.products w1 p)
            = match first_row w sku with
              | Some _ => Product.batches (service_layer.products w p) ++ [nb]
              | None => [nb]
              end)
  ∧ service_layer.rows w1
    = match first_row w sku with
      | Some _ => service_layer.rows w
      | None => service_layer.rows w ++ [np]
      end
  ∧ (∀ orderid q msg,
       (service_layer.allocate uow_enter uow_exit uow_commit orderid sku q w1).1
       ≠ Raise (InvalidSku msg))
  ∧ (first_row w sku = None →
     ∀ orderid q, q ≤ qty →
       let r := service_layer.allocate uow_enter uow_exit uow_commit
                  orderid sku q w1 in
       r.1 = Return ref
       ∧ Batch.available_quantity (service_layer.batches_of r.2 nb) = qty - q
       ∧ Product.version_number (service_layer.products r.2 np) = version0 + 1).
Proof.
  intros a w1. subst w1 a. rewrite add_batch_run. cbv zeta. cbn [fst snd].
  set (w1 := service_layer.mk _ _ _ _ _).
  assert (first_row w1 sku = Some (default np (first_row w sku))
          ∧ Product.batches (service_layer.products w1 (default np (first_row w sku)))
            = match first_row w sku with
              | Some _ => Product.batches
                            (service_layer.products w (default np (first_row w sku)))
                          ++ [nb]
              | None => [nb]
              end) as [Hfirst Hbatches].
  { subst w1. destruct (first_row w sku) as [p|] eqn:Hfind; simpl.
    - split; [ | by rewrite (fn_lookup_insert (A:=ploc)) ].
      rewrite <- Hfind. apply first_row_ext; [ done | ]. intros q. simpl.
      destruct (decide (q = p)) as [->|Hne].
      + by rewrite (fn_lookup_insert (A:=ploc)).
      + by rewrite (fn_lookup_insert_ne (A:=ploc)).
    - split; [ | by rewrite (fn_lookup_insert (A:=ploc)) ].
      unfold first_row. simpl. apply find_app_new.
      + intros q Hq Hsku. destruct (decide (q = np)) as [->|Hne]; [ done | ].
        rewrite !(fn_lookup_insert_ne (A:=ploc)) in Hsku by done.
        apply bool_decide_eq_true in Hsku.
        unfold first_row in Hfind. rewrite find_product_none in Hfind.
        by destruct (Hfind q Hq).
      + rewrite (fn_lookup_insert (A:=ploc)). simpl. by apply bool_decide_eq_true. }
  split; [ done | ]. split; [ done | ].
  split; [ unfold w1; simpl; apply (fn_lookup_insert (A:=loc) (T:=Batch.t)) | ].
  split.
  { intros b Hne. unfold w1. simpl.
    by apply (fn_lookup_insert_ne (A:=loc) (T:=Batch.t)). }
  split.
  { exists (default np (first_row w sku)). split; [ done | ]. split; [ done | ].
    split; [ simpl; set_solver | done ]. }
  split; [ done | ].
  split.
  { intros orderid q msg. by apply uow_allocate_valid with (default np (first_row w sku)). }
  intros Hnone orderid q Hq.
  set (line := OrderLine.OrderLine orderid sku q).
  assert ((service_layer.batches_of w1) nb = Batch.__init__ ref sku qty eta) as Hnb.
  { subst w1. simpl. apply (fn_lookup_insert (A:=loc) (T:=Batch.t)). }
  assert (Product.version_number (service_layer.products w1 np) = version0) as Hversion.
  { subst w1. simpl. rewrite Hnone. simpl.
    by rewrite (fn_lookup_insert (A:=ploc) (T:=Product.t)). }
  assert (Batch.available_quantity ((service_layer.batches_of w1) nb) = qty) as Havailable.
  { rewrite Hnb. unfold Batch.available_quantity, Batch.allocated_quantity. simpl.
    rewrite set_fold_empty. lia. }
  assert (Batch.can_allocate ((service_layer.batches_of w1) nb) line = true) as Hcan.
  { apply can_allocate_spec. rewrite Havailable, Hnb. by split. }
  clearbody w1. subst line.
  rewrite Hnone in Hfirst, Hbatches. simpl in Hfirst, Hbatches.
  rewrite uow_allocate_run, Hfirst, product_allocate_run. cbn [fst snd].
  rewrite Hbatches, (kernel_single _ nb (service_layer.batches_of w1) Hcan). simpl.
  split; [ by rewrite Hnb | ]. split.
  - rewrite allocated_in_self.
    destruct (allocate_fresh (service_layer.batches_of w1 nb)
                (OrderLine.OrderLine orderid sku q)) as [_ ->].
    + rewrite Hnb. simpl. set_solver.
    + by rewrite Hnb.
    + rewrite Havailable. exact Hq.
    + by rewrite Havailable.
  - rewrite (fn_lookup_insert (A:=ploc) (T:=Product.t)). simpl. by rewrite Hversion.
Qed.
End UnitOfWorkClaims.

(** ** The further properties at concrete inputs *)

Section FurtherInstances.
Local Open Scope Z_scope.

Lemma allocate_commutes_witness :
  let batch := Batch.__init__ "batch-001" "SMALL-TABLE" 20 (Some today) in
  let line2 := OrderLine.OrderLine "order-2" "SMALL-TABLE" 1 in
  (Batch.allocate line2 (Batch.allocate table_line batch).2).2
  = (Batch.allocate table_line (Batch.allocate line2 batch).2).2.
Proof.
  intros batch line2.
  refine (proj1 (allocate_commutes batch table_line line2 _ _ _ _ _ _ _ _)).
  - discriminate.
  - set_solver.
  - set_solver.
  - reflexivity.
  - reflexivity.
  - simpl. lia.
  - simpl. lia.
  - vm_compute. discriminate.
Defined.

Lemma deallocate_gives_back_witness :
  Batch.available_quantity (Batch.deallocate table_line (table_store 0%nat)).2
  = Batch.available_quantity (table_store 0%nat) + OrderLine.qty table_line.
Proof.
  refine (proj1 (proj2 (deallocate_gives_back (table_store 0%nat) table_line _))).
  unfold table_store. simpl. set_solver.
Defined.

(** Two batches arrive today; the one listed first is selected. *)
Lemma allocate_tie_break_witness :
  model.allocate spoon_line [3; 1; 0; 2]%nat spoon_store
  = (Return (Batch.reference (spoon_store 3%nat)),
     allocated_in spoon_store spoon_line 3%nat).
Proof.
  refine (proj2 (allocate_tie_break spoon_line [3; 1; 0; 2]%nat spoon_store 3%nat _)).
  vm_compute. reflexivity.
Defined.

Lemma allocate_permutation_witness :
  ∃ s', (model.select clock_line [1; 0]%nat clock_store).1 = Return s'
        ∧ s' ∈ [0; 1]%nat
        ∧ Batch.can_allocate (clock_store s') clock_line = true
        ∧ Batch.eta (clock_store s') = Batch.eta (clock_store 0%nat).
Proof.
  refine (proj2 (allocate_permutation clock_line [0; 1]%nat [1; 0]%nat clock_store _)
                0%nat _).
  - apply Permutation_swap.
  - vm_compute. reflexivity.
Defined.

(** The batch in stock has 90 left after the first call: it is selected
    again. *)
Lemma allocate_again_witness :
  (model.allocate clock_line [0; 1]%nat
     (allocated_in clock_store clock_line 0%nat)).1
  = Return (Batch.reference (clock_store 0%nat)).
Proof.
  refine (proj1 (proj2 (proj1 (allocate_again clock_line [0; 1]%nat clock_store 0%nat _) _))).
  - vm_compute. reflexivity.
  - vm_compute. reflexivity.
Defined.

Lemma uow_allocate_outcomes_witness :
  (service_layer.allocate (λ n, n) (λ n, n) S "oref" "RETRO-CLOCK" 10 clock_world).1
  = (model.allocate clock_line [0; 1]%nat clock_store).1.
Proof.
  refine (proj1 (uow_allocate_outcomes (λ n, n) (λ n, n) S
                   "oref" "RETRO-CLOCK" 10 clock_world 0%nat _)).
  vm_compute. reflexivity.
Defined.
End FurtherInstances.
